(** * Shallow embedding of the expo sources and their properties

    The development follows the source files one module at a time:

    - [Property]    : ABI32_0_0RNBranchProperty.m (Objective-C)
    - [Permissions] : PermissionsRequester.java
    - [StyleSheet]  : StyleSheet.compose (JavaScript)
    - [Firestore]   : CollectionReference.ts (add / doc)
    - [ScreenOrientationScreen] : the teardown of the orientation listener
    - [Registry], [Bridge] : the versioned module registry and the bridge
      dispatcher, modelled from their specification.
    - [AppEntry]    : the entry point that merges the manifest into process.env
    - [StyleAttributes], [StyleSheetCreate] : setStyleAttributePreprocessor
      and create of StyleSheet.js
    - [ScreenActions] : state, lifecycle and button handlers of the screen

    Definitions come first, module by module; the properties follow. *)

From stdpp Require Import gmap strings list fin_maps pretty.

Set Default Proof Using "Type".
Set Warnings "-register-all".

(** ** Error taxonomy shared by the registry, the dispatcher and the
    property descriptors. *)

Inductive ErrorKind :=
| UnknownVersion
| ModuleNotFound
| DuplicateModule
| TypeMismatch
| InvalidTarget
| Timeout
| NativeFailure (message : string).

Inductive Result (A : Type) :=
| Ok (a : A)
| Err (e : ErrorKind).
Arguments Ok {A} a.
Arguments Err {A} e.

#[global] Instance ErrorKind_eq_dec : EqDecision ErrorKind.
Proof. solve_decision. Defined.

(** ** ABI32_0_0RNBranchProperty.m *)

Module Property.

(** A selector is uniqued by the Objective-C runtime, so [==] on [SEL]
    is equality of names; [None] is the NULL selector. *)
Definition SEL := option string.

(** The Foundation classes a property can be typed with.  None of them
    derives from ABI32_0_0RNBranchProperty. *)
Inductive FoundationClass :=
| NSObject | NSString | NSMutableString | NSNumber
| NSArray | NSDictionary | NSNull.

(** Class objects; [Nil] is the null class pointer. *)
Inductive Class :=
| Nil
| Foundation (c : FoundationClass)
| ABI32_0_0RNBranchProperty.

#[global] Instance FoundationClass_eq_dec : EqDecision FoundationClass.
Proof. solve_decision. Defined.
#[global] Instance Class_eq_dec : EqDecision Class.
Proof. solve_decision. Defined.

Definition foundation_superclass (c : FoundationClass) : option FoundationClass :=
  match c with
  | NSObject => None
  | NSMutableString => Some NSString
  | _ => Some NSObject
  end.

Definition superclass (c : Class) : Class :=
  match c with
  | Nil => Nil
  | Foundation f =>
      match foundation_superclass f with
      | Some g => Foundation g
      | None => Nil
      end
  | ABI32_0_0RNBranchProperty => Foundation NSObject
  end.

(** [+isSubclassOfClass:]: walk the superclass chain (its depth is at
    most three here). *)
Fixpoint isSubclassOfClass_fuel (fuel : nat) (c d : Class) : bool :=
  match c with
  | Nil => false
  | _ =>
      if bool_decide (c = d) then true
      else match fuel with
           | O => false
           | S n => isSubclassOfClass_fuel n (superclass c) d
           end
  end.

Definition isSubclassOfClass (c d : Class) : bool :=
  isSubclassOfClass_fuel 3 c d.

(** The instance variables of an ABI32_0_0RNBranchProperty; [address]
    is the identity of the instance. *)
Record Instance := mkInstance {
  address : N;
  setterSelector : SEL;
  type : Class;
}.

(** Objects reachable through [id]. *)
Inductive Object :=
| PropertyObject (p : Instance)
| FoundationObject (addr : N) (isa : FoundationClass).

(** [id]: a possibly nil object pointer. *)
Definition id := option Object.
Definition nil : id := None.

Definition class_of (o : Object) : Class :=
  match o with
  | PropertyObject _ => ABI32_0_0RNBranchProperty
  | FoundationObject _ c => Foundation c
  end.

(** [-isKindOfClass:]; a message to nil answers NO. *)
Definition isKindOfClass (object : id) (c : Class) : bool :=
  match object with
  | None => false
  | Some o => isSubclassOfClass (class_of o) c
  end.

(** Method bodies either return or throw. *)
Inductive Completion (A : Type) :=
| Return (a : A)
| Throw (exception : id).
Arguments Return {A} a.
Arguments Throw {A} exception.

Definition bind {A B} (c : Completion A) (k : A -> Completion B) : Completion B :=
  match c with
  | Return a => k a
  | Throw e => Throw e
  end.

(** [+alloc]: a zeroed instance at a fresh address. *)
Definition alloc (addr : N) : Instance :=
  {| address := addr; setterSelector := None; type := Nil |}.

(** [-[NSObject init]] returns the receiver. *)
Definition NSObject_init (self : Instance) : Completion (option Instance) :=
  Return (Some self).

(** [- initWithSetterSelector:type:]
<<
    self = [super init];
    if (self) { _setterSelector = selector; _type = type; }
    return self;
>> *)
Definition initWithSetterSelector (self : Instance) (selector : SEL) (ty : Class)
  : Completion (option Instance) :=
  bind (NSObject_init self) (fun self =>
    match self with
    | Some s =>
        Return (Some {| address := address s;
                        setterSelector := selector;
                        type := ty |})
    | None => Return None
    end).

(** [+ propertyWithSetterSelector:type:]
    [return [[self alloc] initWithSetterSelector:selector type:type];] *)
Definition propertyWithSetterSelector (addr : N) (selector : SEL) (ty : Class)
  : Completion (option Instance) :=
  initWithSetterSelector (alloc addr) selector ty.

(** [- init { @throw nil; }] *)
Definition init (self : Instance) : Completion (option Instance) :=
  Throw nil.

(** [- isEqual:]
<<
    if (![object isKindOfClass:self.class]) return NO;
    ABI32_0_0RNBranchProperty *other = object;
    return self.setterSelector == other.setterSelector && self.type == other.type;
>> *)
Definition isEqual (self : Instance) (object : id) : bool :=
  if negb (isKindOfClass object (class_of (PropertyObject self))) then false
  else
    match object with
    | Some (PropertyObject other) =>
        bool_decide (setterSelector self = setterSelector other)
        && bool_decide (type self = type other)
    | _ => false
    end.

(** *** Applying a descriptor *)

(** The receiver of a bound setter: the selectors it responds to and
    the values stored so far. *)
Record Target := mkTarget {
  responds : gset string;
  fields : gmap string Object;
}.

(** Modelled from the spec: the category method that applies a property
    to a Branch universal object (ABI32_0_0BranchUniversalObject+RNBranch)
    is not among the sources.  [apply(descriptor, target, value)] fails
    with [TypeMismatch] if the runtime type of [value] is incompatible
    with [descriptor.type], fails with [InvalidTarget] if [target] does
    not expose the bound setter, and otherwise invokes the setter.  The
    target is returned next to the outcome. *)
Definition apply (descriptor : Instance) (target : Target) (value : id)
  : Result unit * Target :=
  if negb (isKindOfClass value (type descriptor)) then (Err TypeMismatch, target)
  else
    match setterSelector descriptor, value with
    | Some sel, Some v =>
        if bool_decide (sel ∈ responds target)
        then (Ok tt, {| responds := responds target;
                        fields := <[sel := v]> (fields target) |})
        else (Err InvalidTarget, target)
    | _, _ => (Err InvalidTarget, target)
    end.

End Property.

(** ** PermissionsRequester.java *)

Module Permissions.

(** A Java reference: [None] is [null]. *)
Definition Ref (A : Type) := option A.

(** Handles of the objects the requester only passes along. *)
Definition PermissionsManager := N.
Definition PermissionsListener := N.

(** The key [PermissionsManager.class] of the module registry. *)
Definition PermissionsManager_class : string := "org.unimodules.interfaces.permissions.PermissionsManager".

(** [ModuleRegistry]: exported interfaces by class; [getModule] answers
    [null] for an interface nobody exports. *)
Definition ModuleRegistry := gmap string N.

Definition getModule (moduleRegistry : ModuleRegistry) (cls : string) : Ref N :=
  moduleRegistry !! cls.

(** Calls issued on the [PermissionsManager] interface. *)
Inductive Call :=
| requestPermissions (receiver : PermissionsManager)
    (permissions : Ref (list string)) (requestCode : Z)
    (listener : Ref PermissionsListener).

Definition PERMISSIONS_REQUEST : Z := 13.

Record PermissionsRequester := mkRequester {
  mPermissionManager : Ref PermissionsManager;
}.

(** The constructor:
    [mPermissionManager = moduleRegistry.getModule(PermissionsManager.class);] *)
Definition new_PermissionsRequester (moduleRegistry : ModuleRegistry)
  : PermissionsRequester :=
  {| mPermissionManager := getModule moduleRegistry PermissionsManager_class |}.

(** [askForPermissions]: the returned boolean and the calls issued. *)
Definition askForPermissions (this : PermissionsRequester)
    (permissions : Ref (list string)) (listener : Ref PermissionsListener)
  : bool * list Call :=
  match mPermissionManager this with
  | Some manager =>
      (true, [requestPermissions manager permissions PERMISSIONS_REQUEST listener])
  | None => (false, [])
  end.

End Permissions.

(** ** StyleSheet.js *)

Module StyleSheet.

(** JavaScript values; objects and arrays live in the heap and are
    denoted by their address, so [===] on them is equality of
    addresses. *)
Inductive Value :=
| undefined
| null
| boolean (b : bool)
| number (n : Z)
| str (s : string)
| ref (addr : N).

Inductive HeapObject :=
| ArrayObject (elements : list Value)
| PlainObject (properties : gmap string Value).

Definition Heap := gmap N HeapObject.

#[global] Instance Value_eq_dec : EqDecision Value.
Proof. solve_decision. Defined.

(** [v != null]: false exactly for [null] and [undefined]. *)
Definition neq_null (v : Value) : bool :=
  match v with
  | undefined | null => false
  | _ => true
  end.

(** The values for which [v != null] is false. *)
Definition nullish (v : Value) : Prop := v = null \/ v = undefined.

(** Allocation of an array literal at an unused address. *)
Definition alloc_array (elements : list Value) (h : gmap N HeapObject)
  : Value * gmap N HeapObject :=
  let a := fresh (dom h) in
  (ref a, <[a := ArrayObject elements]> h).

(** [compose(style1, style2)]
<<
    if (style1 != null && style2 != null) {
      return [style1, style2];
    } else {
      return style1 != null ? style1 : style2;
    }
>> *)
Definition compose (style1 style2 : Value) (h : gmap N HeapObject)
  : Value * gmap N HeapObject :=
  if neq_null style1 && neq_null style2 then
    alloc_array [style1; style2] h
  else
    (if neq_null style1 then style1 else style2, h).

End StyleSheet.

(** ** CollectionReference.ts *)

Module Firestore.

(** A call either returns or throws an [Error] with a message. *)
Inductive Completion (A : Type) :=
| Return (a : A)
| Throw (message : string).
Arguments Return {A} a.
Arguments Throw {A} message.

(** The eventual state of a promise. *)
Inductive Promise (A : Type) :=
| Fulfilled (a : A)
| Rejected (reason : string)
| Pending.
Arguments Fulfilled {A} a.
Arguments Rejected {A} reason.
Arguments Pending {A}.

(** [Promise.resolve(v)] and [p.then(f)]. *)
Definition Promise_resolve {A} (a : A) : Promise A := Fulfilled a.

Definition then_ {A B} (p : Promise A) (onFulfilled : A -> Promise B) : Promise B :=
  match p with
  | Fulfilled a => onFulfilled a
  | Rejected r => Rejected r
  | Pending => Pending
  end.

(** What CollectionReference.ts imports: [Path] with its [child] method
    and [isDocument] getter, the ids [firestoreAutoId()] hands out (the
    n-th call answers [autoIds n]), and the settlement of the native
    write behind [DocumentReference.set]. *)
Class Imports := {
  Firestore : Type;
  Path : Type;
  Data : Type;
  Path_child : Path -> string -> Path;
  Path_isDocument : Path -> bool;
  autoIds : nat -> string;
  native_set : Firestore -> Path -> Data -> Promise unit;
}.

Section CollectionReference.
Context `{Imports}.

Record DocumentReference := mkDocumentReference {
  doc_firestore : Firestore;
  doc_path : Path;
}.

(** [new Query(firestore, collectionPath)] *)
Record Query := mkQuery {
  query_firestore : Firestore;
  query_path : Path;
}.

Record CollectionReference := mkCollectionReference {
  _collectionPath : Path;
  _firestore : Firestore;
  _query : Query;
}.

Definition new_CollectionReference (firestore : Firestore) (collectionPath : Path)
  : CollectionReference :=
  {| _collectionPath := collectionPath;
     _firestore := firestore;
     _query := mkQuery firestore collectionPath |}.

(** The state a method runs in: the receiver, the number of ids
    generated so far and the writes handed to the native side. *)
Record Store := mkStore {
  this : CollectionReference;
  generated : nat;
  writes : list (DocumentReference * Data);
}.

Definition firestoreAutoId (s : Store) : string * Store :=
  (autoIds (generated s),
   {| this := this s; generated := S (generated s); writes := writes s |}).

(** [documentRef.set(data)]: the write is issued and its promise handed
    back. *)
Definition DocumentReference_set (r : DocumentReference) (data : Data) (s : Store)
  : Promise unit * Store :=
  (native_set (doc_firestore r) (doc_path r) data,
   {| this := this s; generated := generated s;
      writes := writes s ++ [(r, data)] |}).

(** Truthiness of an optional string: [undefined] and the empty string
    are falsy. *)
Definition truthy (documentPath : option string) : bool :=
  match documentPath with
  | None => false
  | Some p => negb (bool_decide (p = EmptyString))
  end.

(** The message of the invariant in [doc]; [dquote] is the double
    quote character around the argument's name. *)
Definition dquote : string := String (Ascii.ascii_of_nat 34) EmptyString.

Definition doc_invariant_message : string :=
  "Argument " +:+ dquote +:+ "documentPath" +:+ dquote
  +:+ " must point to a document.".

(** [invariant(condition, message)] *)
Definition invariant (condition : bool) (message : string) : Completion unit :=
  if condition then Return tt else Throw message.

(** [doc(documentPath?)]
<<
    const newPath = documentPath || firestoreAutoId();
    const path = this._collectionPath.child(newPath);
    invariant(path.isDocument, 'Argument "documentPath" must point to a document.');
    return new DocumentReference(this._firestore, path);
>> *)
Definition doc (documentPath : option string) (s : Store)
  : Completion DocumentReference * Store :=
  let '(newPath, s1) :=
    match documentPath with
    | Some p => if truthy documentPath then (p, s) else firestoreAutoId s
    | None => firestoreAutoId s
    end in
  let path := Path_child (_collectionPath (this s1)) newPath in
  match invariant (Path_isDocument path) doc_invariant_message with
  | Throw m => (Throw m, s1)
  | Return _ => (Return (mkDocumentReference (_firestore (this s1)) path), s1)
  end.

(** [add(data)]
<<
    const documentRef = this.doc();
    return documentRef.set(data).then(() => Promise.resolve(documentRef));
>> *)
Definition add (data : Data) (s : Store)
  : Completion (Promise DocumentReference) * Store :=
  match doc None s with
  | (Throw m, s1) => (Throw m, s1)
  | (Return documentRef, s1) =>
      let '(p, s2) := DocumentReference_set documentRef data s1 in
      (Return (then_ p (fun _ => Promise_resolve documentRef)), s2)
  end.

(** The reference [doc()] builds in store [s]: the child of the
    collection path named by the next generated id. *)
Definition auto_document (s : Store) : DocumentReference :=
  mkDocumentReference (_firestore (this s))
    (Path_child (_collectionPath (this s)) (autoIds (generated s))).

End CollectionReference.

End Firestore.

(** ** The versioned module registry *)

Module Registry.

Definition VersionNamespace := string.

Record ModuleDescriptor := mkModuleDescriptor {
  md_name : string;
  md_namespace : VersionNamespace;
  md_implementation : N;
  md_capabilities : list string;
}.

#[global] Instance ModuleDescriptor_eq_dec : EqDecision ModuleDescriptor.
Proof. solve_decision. Defined.

(** Descriptors are looked up by the (namespace, name) pair. *)
Abbreviation Registry := (gmap (VersionNamespace * string) ModuleDescriptor).

(** Modelled from the spec: the registry of the versioned native bridge
    is not among the sources.  [register(namespace, name, descriptor)]
    fails with [DuplicateModule] if (namespace, name) is already
    registered; the registry after the call is returned next to the
    outcome. *)
Definition register (namespace : VersionNamespace) (name : string)
    (descriptor : ModuleDescriptor) (r : Registry) : Result unit * Registry :=
  match r !! (namespace, name) with
  | Some _ => (Err DuplicateModule, r)
  | None => (Ok tt, <[(namespace, name) := descriptor]> r)
  end.

(** Modelled from the spec: [resolve(namespace, name)] answers the
    descriptor registered under the pair and fails with
    [ModuleNotFound] when absent. *)
Definition resolve (namespace : VersionNamespace) (name : string) (r : Registry)
  : Result ModuleDescriptor :=
  match r !! (namespace, name) with
  | Some d => Ok d
  | None => Err ModuleNotFound
  end.

(** A registration request of the start-up phase. *)
Definition Registration : Type := VersionNamespace * string * ModuleDescriptor.

(** The registry after a sequence of registration requests, issued in
    order on [r]; a failed request leaves the registry as it was. *)
Definition startup (requests : list Registration) (r : Registry) : Registry :=
  foldl (fun acc '(ns, name, d) => (register ns name d acc).2) r requests.

(** The request that is first in [requests] for a pair. *)
Fixpoint first_request (namespace : VersionNamespace) (name : string)
    (requests : list Registration) : option ModuleDescriptor :=
  match requests with
  | [] => None
  | (ns, n, d) :: rest =>
      if bool_decide ((ns, n) = (namespace, name)) then Some d
      else first_request namespace name rest
  end.

(** The requests of [requests] that are not addressed to [namespace]. *)
Definition without_namespace (namespace : VersionNamespace)
    (requests : list Registration) : list Registration :=
  filter (fun q : Registration => q.1.1 ≠ namespace) requests.

End Registry.

(** ** The bridge dispatcher *)

Module Bridge.

(** Values that cross the bridge. *)
Inductive Json :=
| JNull
| JBool (b : bool)
| JNumber (n : Z)
| JString (s : string)
| JList (items : list Json)
| JMap (entries : list (string * Json)).

(** What a completion slot can hold: a result value or an error. *)
Inductive Outcome :=
| ResultValue (v : Json)
| Failure (kind : ErrorKind) (message : string).

Record PendingRequest := mkPendingRequest {
  request_id : N;
  target_module : string;
  arguments : list Json;
  slot : option Outcome;
}.

(** A delivery to the caller, tagged with the request id. *)
Definition Delivery : Type := N * Outcome.

(** A capability invocation creates the request with an empty slot. *)
Definition invoke (id : N) (module : string) (args : list Json) : PendingRequest :=
  {| request_id := id; target_module := module; arguments := args; slot := None |}.

(** A completion attempt queued by a native thread (or by the timeout
    of the dispatcher, as a [Failure Timeout]). *)
Record Attempt := mkAttempt {
  thread : N;
  outcome : Outcome;
}.

(** Modelled from the spec: the dispatcher is not among the sources.
    Native callbacks are queued and handled one at a time on the
    scripting thread; the completion slot is satisfied by whichever
    attempt comes first, and a satisfied slot is not satisfied again. *)
Definition complete (a : Attempt) (req : PendingRequest)
  : PendingRequest * list Delivery :=
  match slot req with
  | Some _ => (req, [])
  | None =>
      ({| request_id := request_id req;
          target_module := target_module req;
          arguments := arguments req;
          slot := Some (outcome a) |},
       [(request_id req, outcome a)])
  end.

(** The queued attempts handled in arrival order. *)
Fixpoint drain (queue : list Attempt) (req : PendingRequest)
  : PendingRequest * list Delivery :=
  match queue with
  | [] => (req, [])
  | a :: rest =>
      let '(req1, d1) := complete a req in
      let '(req2, d2) := drain rest req1 in
      (req2, d1 ++ d2)
  end.

(** *** Subscriptions *)

Definition Subscription := N.

(** The dispatcher's view of the listeners: the cancellation tokens
    that are set and the callbacks queued for the scripting thread. *)
Record Listeners := mkListeners {
  cancelled : gset Subscription;
  queued : list (Subscription * Json);
}.

(** What can happen next: a native thread queues a callback, the
    scripting side tears a listener down, the scripting thread
    dispatches the callback at the head of the queue. *)
Inductive Step :=
| Emit (sub : Subscription) (payload : Json)
| Cancel (sub : Subscription)
| Dispatch.

(** What the scripting side observes. *)
Inductive Observation :=
| Delivered (sub : Subscription) (payload : Json)
| CancelAcknowledged (sub : Subscription).

(** Modelled from the spec: the event emitter behind
    [addOrientationChangeListener] and the [remove] of its
    subscriptions are not among the sources.  A subscription carries a
    cancellation token; tearing the listener down sets the token and
    acknowledges; the token is checked atomically at delivery time. *)
Definition step (st : Step) (l : Listeners) : Listeners * list Observation :=
  match st with
  | Emit sub payload =>
      ({| cancelled := cancelled l; queued := queued l ++ [(sub, payload)] |}, [])
  | Cancel sub =>
      ({| cancelled := {[sub]} ∪ cancelled l; queued := queued l |},
       [CancelAcknowledged sub])
  | Dispatch =>
      match queued l with
      | [] => (l, [])
      | (sub, payload) :: rest =>
          ({| cancelled := cancelled l; queued := rest |},
           if bool_decide (sub ∈ cancelled l) then [] else [Delivered sub payload])
      end
  end.

(** An interleaving of steps and the observations it produces. *)
Fixpoint run (steps : list Step) (l : Listeners) : Listeners * list Observation :=
  match steps with
  | [] => (l, [])
  | st :: rest =>
      let '(l1, o1) := step st l in
      let '(l2, o2) := run rest l1 in
      (l2, o1 ++ o2)
  end.

End Bridge.

(** ** ScreenOrientationScreen.js *)

Module ScreenOrientationScreen.

(** The instance field the teardown reads: the subscription that
    [componentDidMount] stored, if any. *)
Record Component := mkComponent {
  listener : option Bridge.Subscription;
}.

(** [componentWillUnmount]
<<
    if (this.listener) {
      this.listener.remove();
    }
>> *)
Definition componentWillUnmount (this : Component) (l : Bridge.Listeners)
  : Bridge.Listeners * list Bridge.Observation :=
  match listener this with
  | Some sub => Bridge.step (Bridge.Cancel sub) l
  | None => (l, [])
  end.

End ScreenOrientationScreen.

(** ** Concrete inputs used by the examples *)

Module Samples.

(** A concrete instance of the imports: paths are lists of segments, a
    path is a document when it has an even, positive number of
    segments, every generated id is [auto] followed by a counter
    letter, and writes under the collection [locked] are rejected. *)
Definition imports : Firestore.Imports :=
  {| Firestore.Firestore := unit;
     Firestore.Path := list string;
     Firestore.Data := Z;
     Firestore.Path_child := fun p c => p ++ [c];
     Firestore.Path_isDocument := fun p => negb (bool_decide (p = [])) && Nat.even (length p);
     Firestore.autoIds := fun n => "auto" +:+ String (Ascii.ascii_of_nat (65 + n)) EmptyString;
     Firestore.native_set := fun _ p _ =>
       match p with
       | "locked" :: _ => Firestore.Rejected "permission-denied"
       | _ => Firestore.Fulfilled tt
       end |}.

Definition store : @Firestore.Store imports :=
  Firestore.mkStore
    (@Firestore.new_CollectionReference imports tt ["users"]) 0 [].

Definition settings : Registry.ModuleDescriptor :=
  Registry.mkModuleDescriptor "Settings" "V1" 1%N ["get"; "set"].

Definition settings_v1_only : list Registry.Registration :=
  [("V1", "Settings", settings)].

Definition no_listeners : Bridge.Listeners := Bridge.mkListeners ∅ [].

Definition teardown_race : list Bridge.Step :=
  [Bridge.Emit 1%N (Bridge.JString "PORTRAIT");
   Bridge.Emit 2%N (Bridge.JString "LANDSCAPE");
   Bridge.Cancel 1%N;
   Bridge.Dispatch;
   Bridge.Dispatch;
   Bridge.Emit 1%N (Bridge.JString "PORTRAIT_DOWN");
   Bridge.Dispatch].

End Samples.

(** ** The application entry point (environment set-up) *)

Module AppEntry.

Import Bridge.

(** [typeof v]; [None] is [undefined]. *)
Definition typeof (v : option Json) : string :=
  match v with
  | None => "undefined"
  | Some JNull => "object"
  | Some (JBool _) => "boolean"
  | Some (JNumber _) => "number"
  | Some (JString _) => "string"
  | Some (JList _) => "object"
  | Some (JMap _) => "object"
  end.

(** The own properties of an object read from JSON; a later binding of
    a key replaces an earlier one. *)
Definition props_of (entries : list (string * Json)) : gmap string Json :=
  foldl (fun m e => <[e.1 := e.2]> m) ∅ entries.

(** [v.key] for a key that [Object.prototype] does not define: reading
    a property of [undefined] or [null] throws a TypeError; primitives
    and arrays have no own property of a non-index name. *)
Definition get_property (v : option Json) (key : string)
  : Firestore.Completion (option Json) :=
  match v with
  | None => Firestore.Throw "TypeError"
  | Some JNull => Firestore.Throw "TypeError"
  | Some (JMap entries) => Firestore.Return (props_of entries !! key)
  | Some _ => Firestore.Return None
  end.

Definition indexed {A} (l : list A) : list (string * A) :=
  imap (fun i x => (pretty i, x)) l.

(** The own enumerable properties [Object.assign] copies from a
    source, in order: none for [undefined], [null], booleans and
    numbers; the indices of a string or an array; the entries of an
    object. *)
Definition own_enumerable (source : option Json) : list (string * Json) :=
  match source with
  | Some (JString s) =>
      indexed ((fun c => JString (String c EmptyString)) <$> String.list_ascii_of_string s)
  | Some (JList items) => indexed items
  | Some (JMap entries) => entries
  | _ => []
  end.

(** The prototype of an ordinary object: [Object.prototype], [null],
    or an object or array that was handed to the [__proto__] setter. *)
Inductive Prototype :=
| ObjectPrototype
| NullPrototype
| ValuePrototype (v : Json).

(** An ordinary, extensible object: its own properties and its
    prototype. *)
Record JSObject := mkObject {
  own : gmap string Json;
  prototype : Prototype;
}.

(** Whether an assignment to [__proto__] on an object with prototype
    [p] and no own property of that name reaches the accessor of
    [Object.prototype]: not below a null prototype, and not when an
    object on the way has an own data property [__proto__]. *)
Definition reaches_setter (p : Prototype) : bool :=
  match p with
  | ObjectPrototype => true
  | NullPrototype => false
  | ValuePrototype (JMap entries) => bool_decide (props_of entries !! "__proto__" = None)
  | ValuePrototype _ => true
  end.

(** The [__proto__] setter: an object or [null] becomes the prototype,
    any other value is ignored. *)
Definition proto_setter (o : JSObject) (v : Json) : JSObject :=
  match v with
  | JNull => {| own := own o; prototype := NullPrototype |}
  | JMap _ | JList _ => {| own := own o; prototype := ValuePrototype v |}
  | _ => o
  end.

(** [o[key] = v]: an own property is overwritten; otherwise the key
    [__proto__] goes to the setter when the setter is reached; every
    other assignment creates an own property. *)
Definition set_property (o : JSObject) (key : string) (v : Json) : JSObject :=
  match own o !! key with
  | Some _ => {| own := <[key := v]> (own o); prototype := prototype o |}
  | None =>
      if bool_decide (key = "__proto__") && reaches_setter (prototype o)
      then proto_setter o v
      else {| own := <[key := v]> (own o); prototype := prototype o |}
  end.

(** [Object.assign(target, source)]: [target[key] = source[key]] for
    each own enumerable key of the source. *)
Definition Object_assign (target : JSObject) (source : option Json) : JSObject :=
  foldl (fun o e => set_property o e.1 e.2) target (own_enumerable source).

(** What the entry point acts on: [process.env] and whether
    [navigator.geolocation] has been polyfilled. *)
Record Runtime := mkRuntime {
  process_env : JSObject;
  geolocation_polyfilled : bool;
}.

(** The statements of the entry point after its imports, for
    [Constants.manifest = manifest]:
<<
    if (typeof Constants.manifest.env === 'object') {
      Object.assign(process.env, Constants.manifest.env);
    }
    installWebGeolocationPolyfill();
>> *)
Definition main (manifest : option Json) (rt : Runtime)
  : Firestore.Completion unit * Runtime :=
  match get_property manifest "env" with
  | Firestore.Throw m => (Firestore.Throw m, rt)
  | Firestore.Return env =>
      let env1 :=
        if bool_decide (typeof env = "object")
        then Object_assign (process_env rt) env
        else process_env rt in
      (Firestore.Return tt,
       {| process_env := env1; geolocation_polyfilled := true |})
  end.

End AppEntry.

(** ** StyleSheet.setStyleAttributePreprocessor *)

Module StyleAttributes.

(** The values of the table of style attributes and of the
    preprocessors stored in it.  [Object props] is an ordinary object
    with the own properties [props] and [Object.prototype] as its
    prototype; [ObjectPrototype] is [Object.prototype] itself and
    [Builtin name] the method of that name it defines. *)
Inductive JS :=
| Undefined
| Null
| Boolean (b : bool)
| Number (n : Z)
| Str (s : string)
| Function (f : N)
| Builtin (name : string)
| ObjectPrototype
| Object (props : gmap string JS).

Definition typeof (v : JS) : string :=
  match v with
  | Undefined => "undefined"
  | Null => "object"
  | Boolean _ => "boolean"
  | Number _ => "number"
  | Str _ => "string"
  | Function _ => "function"
  | Builtin _ => "function"
  | ObjectPrototype => "object"
  | Object _ => "object"
  end.

(** The methods of [Object.prototype]. *)
Definition prototype_methods : list string :=
  ["constructor"; "hasOwnProperty"; "isPrototypeOf"; "propertyIsEnumerable";
   "toLocaleString"; "toString"; "valueOf";
   "__defineGetter__"; "__defineSetter__"; "__lookupGetter__"; "__lookupSetter__"].

(** What an object inherits from [Object.prototype] under a key other
    than [__proto__]. *)
Definition inherited_method (key : string) : JS :=
  if bool_decide (key ∈ prototype_methods) then Builtin key else Undefined.

(** The table [ReactNativeStyleAttributes]: its own entries and its
    prototype, [None] for [Object.prototype] and [Some p] for an
    ordinary object with the own properties [p]. *)
Record Table := mkTable {
  own : gmap string JS;
  prototype : option (gmap string JS);
}.

(** [table[property]]: an own entry, else a property of the prototype
    object, else what [Object.prototype] provides: the prototype of
    the table under [__proto__], a method, or [undefined]. *)
Definition read (table : Table) (property : string) : JS :=
  match own table !! property with
  | Some v => v
  | None =>
      match prototype table with
      | Some p =>
          match p !! property with
          | Some v => v
          | None =>
              if bool_decide (property = "__proto__") then Object p
              else inherited_method property
          end
      | None =>
          if bool_decide (property = "__proto__") then ObjectPrototype
          else inherited_method property
      end
  end.

(** [value.process]: a TypeError on [null] and [undefined]; an own
    property of an object; [undefined] otherwise, [process] being no
    property of [Object.prototype] or of the wrappers of
    primitives. *)
Definition process_of (value : JS) : Firestore.Completion JS :=
  match value with
  | Null | Undefined => Firestore.Throw "TypeError"
  | Object props => Firestore.Return (default Undefined (props !! "process"))
  | _ => Firestore.Return Undefined
  end.

(** [{...value}]: the own enumerable properties of an object, none for
    [null] and for [Object.prototype]. *)
Definition spread (value : JS) : gmap string JS :=
  match value with
  | Object props => props
  | _ => ∅
  end.

(** Whether an assignment to [__proto__] on a table with this
    prototype and no own entry of that name reaches the accessor of
    [Object.prototype]: not when the prototype object has an own
    property [__proto__]. *)
Definition reaches_setter (p : option (gmap string JS)) : bool :=
  match p with
  | Some q => bool_decide (q !! "__proto__" = None)
  | None => true
  end.

(** [table[property] = {...}] for a new object with the own properties
    [props]: an own entry is overwritten; otherwise the key
    [__proto__] goes to the setter, which makes the object the
    prototype of the table; every other assignment creates an own
    entry. *)
Definition store (table : Table) (property : string) (props : gmap string JS)
  : Table :=
  match own table !! property with
  | Some _ =>
      {| own := <[property := Object props]> (own table);
         prototype := prototype table |}
  | None =>
      if bool_decide (property = "__proto__") && reaches_setter (prototype table)
      then {| own := own table; prototype := Some props |}
      else {| own := <[property := Object props]> (own table);
              prototype := prototype table |}
  end.

Inductive Console :=
| console_error (message : string)
| console_warn (message : string).

(** [setStyleAttributePreprocessor(property, process)], with [dev] the
    value of [__DEV__]:
<<
    let value;
    if (typeof ReactNativeStyleAttributes[property] === 'string') {
      value = {};
    } else if (typeof ReactNativeStyleAttributes[property] === 'object') {
      value = ReactNativeStyleAttributes[property];
    } else {
      console.error(`${property} is not a valid style attribute`);
      return;
    }
    if (__DEV__ && typeof value.process === 'function') {
      console.warn(`Overwriting ${property} style attribute preprocessor`);
    }
    ReactNativeStyleAttributes[property] = {...value, process};
>>
    The outcome, the table afterwards and the console output. *)
Definition setStyleAttributePreprocessor (dev : bool) (property : string)
    (process : JS) (table : Table)
  : Firestore.Completion unit * Table * list Console :=
  let current := read table property in
  let chosen :=
    if bool_decide (typeof current = "string") then Some (Object ∅)
    else if bool_decide (typeof current = "object") then Some current
    else None in
  match chosen with
  | None =>
      (Firestore.Return tt, table,
       [console_error (property +:+ " is not a valid style attribute")])
  | Some value =>
      let assigned (out : list Console) :=
        (Firestore.Return tt,
         store table property (<["process" := process]> (spread value)),
         out) in
      if dev then
        match process_of value with
        | Firestore.Throw m => (Firestore.Throw m, table, [])
        | Firestore.Return p =>
            if bool_decide (typeof p = "function")
            then assigned [console_warn ("Overwriting " +:+ property
                                         +:+ " style attribute preprocessor")]
            else assigned []
        end
      else assigned []
  end.

(** The warning a development build prints when the entry [props]
    already has a function as its [process]. *)
Definition overwrite_warning (props : gmap string JS) (property : string)
  : list Console :=
  if bool_decide (typeof (default Undefined (props !! "process")) = "function")
  then [console_warn ("Overwriting " +:+ property +:+ " style attribute preprocessor")]
  else [].

End StyleAttributes.

(** ** StyleSheet.create *)

Module StyleSheetCreate.

Import StyleSheet.

(** Truthiness of a style value: [undefined], [null], [false], [0] and
    the empty string are falsy. *)
Definition truthy (v : Value) : bool :=
  match v with
  | undefined | null => false
  | boolean b => b
  | number n => negb (bool_decide (n = 0%Z))
  | str s => negb (bool_decide (s = EmptyString))
  | ref _ => true
  end.

(** The object [create] builds: its own properties and its prototype,
    [None] for [Object.prototype] and [Some v] for the value ([null]
    or an object) that was handed to the [__proto__] setter. *)
Record Created := mkCreated {
  created_props : gmap string Value;
  created_prototype : option Value;
}.

(** [const result = {};] *)
Definition empty_object : Created :=
  {| created_props := ∅; created_prototype := None |}.

(** Whether an assignment to [__proto__] on an object with this
    prototype reaches the accessor of [Object.prototype]: not below a
    null prototype (an object handed to the setter is taken to be an
    ordinary one). *)
Definition reaches_setter (p : option Value) : bool :=
  match p with
  | Some null => false
  | _ => true
  end.

(** [result[key] = v]: an own property is overwritten; otherwise the
    key [__proto__] goes to the setter, which takes [null] or an
    object as the new prototype and ignores any other value; every
    other assignment creates an own property. *)
Definition assign (result : Created) (key : string) (v : Value) : Created :=
  match created_props result !! key with
  | Some _ =>
      {| created_props := <[key := v]> (created_props result);
         created_prototype := created_prototype result |}
  | None =>
      if bool_decide (key = "__proto__") && reaches_setter (created_prototype result)
      then match v with
           | null | ref _ =>
               {| created_props := created_props result; created_prototype := Some v |}
           | _ => result
           end
      else {| created_props := <[key := v]> (created_props result);
              created_prototype := created_prototype result |}
  end.

(** What the loop keeps: no own [__proto__], and a prototype that is
    still [Object.prototype] as long as [__proto__] is to come. *)
Definition loop_invariant (acc : Created) (rest : list (string * Value)) : Prop :=
  created_props acc !! "__proto__" = None
  /\ (created_prototype acc = None \/ "__proto__" ∉ rest.*1)
  /\ NoDup rest.*1.

Section Create.

(** What StyleSheet.js requires: [ReactNativePropRegistry.register],
    acting on the state of the registry, and
    [StyleSheetValidation.validateStyle], which answers the message it
    throws with for a style it rejects. *)
Variable PropRegistry : Type.
Variable register : Value -> PropRegistry -> Value * PropRegistry.
Variable validateStyle : string -> list (string * Value) -> option string.

(** The body of the loop for one key of [obj]:
<<
    StyleSheetValidation.validateStyle(key, obj);
    result[key] = obj[key] && ReactNativePropRegistry.register(obj[key]);
>> *)
Definition create_key (obj : list (string * Value)) (key : string) (v : Value)
    (acc : Created * PropRegistry)
  : Firestore.Completion Created * PropRegistry :=
  match validateStyle key obj with
  | Some message => (Firestore.Throw message, acc.2)
  | None =>
      if truthy v then
        let '(id, reg) := register v acc.2 in
        (Firestore.Return (assign acc.1 key id), reg)
      else (Firestore.Return (assign acc.1 key v), acc.2)
  end.

Fixpoint create_loop (obj rest : list (string * Value))
    (acc : Created * PropRegistry)
  : Firestore.Completion Created * PropRegistry :=
  match rest with
  | [] => (Firestore.Return acc.1, acc.2)
  | (key, v) :: rest' =>
      match create_key obj key v acc with
      | (Firestore.Throw m, reg) => (Firestore.Throw m, reg)
      | (Firestore.Return result, reg) => create_loop obj rest' (result, reg)
      end
  end.

(** [create(obj)]; [obj] lists the enumerable properties of the
    argument in the order [for (const key in obj)] visits them.
<<
    const result = {};
    for (const key in obj) { ... }
    return result;
>> *)
Definition create (obj : list (string * Value)) (reg : PropRegistry)
  : Firestore.Completion Created * PropRegistry :=
  create_loop obj obj (empty_object, reg).

End Create.

End StyleSheetCreate.

(** ** ScreenOrientationScreen.js: state, lifecycle and button handlers *)

Module ScreenActions.

Import Firestore.

(** The calls a method makes on the platform, in order. *)
Inductive Call :=
| addOrientationChangeListener
| getOrientationAsync
| getOrientationLockAsync
| requestFullscreen
| exitFullscreen
| lockAsync (orientation : string)
| lockPlatformAsync (web ios : list string) (android : Z)
| supportsOrientationLockAsync (orientation : string)
| unlockAsync
| console_warn (reason : string)
| alert (message : string).

(** What the screen imports: [Platform.OS], the members of the
    [ScreenOrientation.Orientation] enumeration by name, and how the
    promise of each platform call settles. *)
Record Platform := mkPlatform {
  OS : string;
  Orientation : string -> string;
  requestFullscreen_answer : Promise unit;
  exitFullscreen_answer : Promise unit;
  lockAsync_answer : string -> Promise unit;
  lockPlatformAsync_answer : Promise unit;
  supportsOrientationLockAsync_answer : string -> Promise bool;
  unlockAsync_answer : Promise unit;
  getOrientationAsync_answer : Promise string;
  getOrientationLockAsync_answer : Promise string;
}.

(** An async function: the calls it made and how its promise
    settles. *)
Definition Async (A : Type) : Type := list Call * Promise A.

Definition ret {A} (a : A) : Async A := ([], Fulfilled a).

Definition call {A} (c : Call) (answer : Promise A) : Async A := ([c], answer).

(** [const x = await m; k x]: a rejection or a promise that never
    settles ends the function there. *)
Definition await {A B} (m : Async A) (k : A -> Async B) : Async B :=
  match m with
  | (cs, Fulfilled a) => (cs ++ (k a).1, (k a).2)
  | (cs, Rejected r) => (cs, Rejected r)
  | (cs, Pending) => (cs, Pending)
  end.

(** [m.catch(handler)] for a handler that answers [undefined]. *)
Definition catch {A} (m : Async A) (handler : string -> list Call) : Async (option A) :=
  match m with
  | (cs, Fulfilled a) => (cs, Fulfilled (Some a))
  | (cs, Rejected r) => (cs ++ handler r, Fulfilled None)
  | (cs, Pending) => (cs, Pending)
  end.

(** [lock]
<<
    if (Platform.OS === 'web') {
      await document.documentElement.requestFullscreen();
    }
    await ScreenOrientation.lockAsync(orientation).catch(console.warn);
    if (Platform.OS === 'web') {
      await document.exitFullscreen();
    }
>> *)
Definition lock (pf : Platform) (orientation : string) : Async unit :=
  await (if bool_decide (OS pf = "web")
         then call requestFullscreen (requestFullscreen_answer pf)
         else ret tt) (fun _ =>
  await (catch (call (lockAsync orientation) (lockAsync_answer pf orientation))
               (fun reason => [console_warn reason])) (fun _ =>
  if bool_decide (OS pf = "web")
  then call exitFullscreen (exitFullscreen_answer pf)
  else ret tt)).

(** [lockPlatformExample]: as [lock], with [lockPlatformAsync] on the
    fixed options and [alert] as the rejection handler. *)
Definition lockPlatformExample (pf : Platform) : Async unit :=
  await (if bool_decide (OS pf = "web")
         then call requestFullscreen (requestFullscreen_answer pf)
         else ret tt) (fun _ =>
  await (catch (call (lockPlatformAsync
                        [Orientation pf "LANDSCAPE_LEFT"; Orientation pf "LANDSCAPE_RIGHT"]
                        [Orientation pf "PORTRAIT_DOWN"; Orientation pf "LANDSCAPE_RIGHT"]
                        8)
                     (lockPlatformAsync_answer pf))
               (fun e => [alert e])) (fun _ =>
  if bool_decide (OS pf = "web")
  then call exitFullscreen (exitFullscreen_answer pf)
  else ret tt)).

(** [JSON.stringify(result)] inside a template literal, for a boolean
    or [undefined]. *)
Definition stringify (result : option bool) : string :=
  match result with
  | Some true => "true"
  | Some false => "false"
  | None => "undefined"
  end.

(** [doesSupport]
<<
    const result = await ScreenOrientation.supportsOrientationLockAsync(
      ScreenOrientation.Orientation.PORTRAIT_DOWN
    ).catch(console.warn);
    alert(`Orientation.PORTRAIT_DOWN supported: ${JSON.stringify(result)}`);
>> *)
Definition doesSupport (pf : Platform) : Async unit :=
  await (catch (call (supportsOrientationLockAsync (Orientation pf "PORTRAIT_DOWN"))
                     (supportsOrientationLockAsync_answer pf (Orientation pf "PORTRAIT_DOWN")))
               (fun reason => [console_warn reason])) (fun result =>
  ([alert ("Orientation.PORTRAIT_DOWN supported: " +:+ stringify result)],
   Fulfilled tt)).

(** [unlock]: [await ScreenOrientation.unlockAsync().catch(console.warn);] *)
Definition unlock (pf : Platform) : Async unit :=
  await (catch (call unlockAsync (unlockAsync_answer pf))
               (fun reason => [console_warn reason])) (fun _ => ret tt).

(** The component state; [None] is [undefined]. *)
Record State := mkState {
  orientation : option string;
  orientationLock : option string;
}.

(** The class field initialiser
    [state = { orientation: undefined, orientationLock: undefined }]. *)
Definition initial_state : State :=
  {| orientation := None; orientationLock := None |}.

Record Screen := mkScreen {
  component : ScreenOrientationScreen.Component;
  state : State;
}.

(** A partial state handed to [setState]; an absent key is [None]. *)
Record Update := mkUpdate {
  set_orientation : option (option string);
  set_orientationLock : option (option string);
}.

(** [this.setState(update)] merges the keys of the update. *)
Definition setState (u : Update) (s : Screen) : Screen :=
  {| component := component s;
     state := {| orientation := default (orientation (state s)) (set_orientation u);
                 orientationLock :=
                   default (orientationLock (state s)) (set_orientationLock u) |} |}.

(** The event an orientation listener receives: the [orientation] of
    its [orientationInfo] and its [orientationLock]. *)
Record Event := mkEvent {
  event_orientation : option string;
  event_orientationLock : option string;
}.

(** The listener registered by [componentDidMount]:
<<
    ({ orientationInfo, orientationLock }) => {
      this.setState({ orientation: orientationInfo.orientation, orientationLock });
    }
>> *)
Definition onOrientationChange (e : Event) (s : Screen) : Screen :=
  setState {| set_orientation := Some (event_orientation e);
              set_orientationLock := Some (event_orientationLock e) |} s.

(** [promise.orientation]: a promise object has no such property, so
    the member access answers [undefined]. *)
Definition Promise_orientation {A} (p : Promise A) : option string := None.

(** [Promise.all([value, promise])] *)
Definition Promise_all2 {A B} (a : A) (p : Promise B) : Promise (A * B) :=
  match p with
  | Fulfilled b => Fulfilled (a, b)
  | Rejected r => Rejected r
  | Pending => Pending
  end.

(** [componentDidMount] up to its [await]: the listener is stored and
    the two queries are issued; [sub] is the subscription
    [addOrientationChangeListener] answers.
<<
    this.listener = ScreenOrientation.addOrientationChangeListener(...);
    const [orientation, orientationLock] = await Promise.all([
      ScreenOrientation.getOrientationAsync().orientation,
      ScreenOrientation.getOrientationLockAsync(),
    ]);
>> *)
Definition componentDidMount_begin (sub : Bridge.Subscription) (s : Screen)
  : Screen * list Call :=
  ({| component := ScreenOrientationScreen.mkComponent (Some sub); state := state s |},
   [addOrientationChangeListener; getOrientationAsync; getOrientationLockAsync]).

(** [componentDidMount] from its [await] on:
    [this.setState({ orientation, orientationLock });] *)
Definition componentDidMount_resume (pf : Platform) (s : Screen)
  : Screen * Promise unit :=
  match Promise_all2 (Promise_orientation (getOrientationAsync_answer pf))
          (getOrientationLockAsync_answer pf) with
  | Fulfilled (o, l) =>
      (setState {| set_orientation := Some o; set_orientationLock := Some (Some l) |} s,
       Fulfilled tt)
  | Rejected r => (s, Rejected r)
  | Pending => (s, Pending)
  end.

(** [updateOrientationAsync]
<<
    this.setState({
      orientation: (await ScreenOrientation.getOrientationAsync()).orientation,
    });
>> *)
Definition updateOrientationAsync (pf : Platform) (s : Screen)
  : Screen * Async unit :=
  match getOrientationAsync_answer pf with
  | Fulfilled o =>
      (setState {| set_orientation := Some (Some o); set_orientationLock := None |} s,
       ([getOrientationAsync], Fulfilled tt))
  | Rejected r => (s, ([getOrientationAsync], Rejected r))
  | Pending => (s, ([getOrientationAsync], Pending))
  end.

(** The listener runs for each of the events delivered, in order. *)
Definition deliver (events : list Event) (s : Screen) : Screen :=
  foldl (fun acc e => onOrientationChange e acc) s events.

End ScreenActions.

(** ** Further concrete inputs *)

Module MoreSamples.

(** A collection reference built on the path of a document, and one on
    the collection whose writes are rejected. *)
Definition misplaced_store : @Firestore.Store Samples.imports :=
  Firestore.mkStore
    (@Firestore.new_CollectionReference Samples.imports tt ["users"; "alice"]) 0 [].

Definition locked_store : @Firestore.Store Samples.imports :=
  Firestore.mkStore
    (@Firestore.new_CollectionReference Samples.imports tt ["locked"]) 0 [].

(** A manifest with an [env] object, and a runtime to merge it into. *)
Definition manifest_env : list (string * Bridge.Json) :=
  [("API_URL", Bridge.JString "https://example.org");
   ("STAGE", Bridge.JString "beta")].

Definition manifest : option Bridge.Json :=
  Some (Bridge.JMap [("name", Bridge.JString "ncl");
                     ("env", Bridge.JMap manifest_env)]).

Definition manifest_without_env : option Bridge.Json :=
  Some (Bridge.JMap [("name", Bridge.JString "ncl")]).

Definition runtime : AppEntry.Runtime :=
  AppEntry.mkRuntime
    (AppEntry.mkObject
       {["STAGE" := Bridge.JString "dev"; "HOME" := Bridge.JString "/"]}
       AppEntry.ObjectPrototype)
    false.

(** An [env] whose only own key is [__proto__], bound to [null]. *)
Definition manifest_null_proto : option Bridge.Json :=
  Some (Bridge.JMap [("env", Bridge.JMap [("__proto__", Bridge.JNull)])]).

(** A table of style attributes: a plain attribute, one with a
    preprocessor and a comparison, and a null entry. *)
Definition transform_entry : gmap string StyleAttributes.JS :=
  {["process" := StyleAttributes.Function 1; "diff" := StyleAttributes.Function 2]}.

Definition attributes : StyleAttributes.Table :=
  StyleAttributes.mkTable
    {["opacity" := StyleAttributes.Boolean true;
      "transform" := StyleAttributes.Object transform_entry;
      "broken" := StyleAttributes.Null]}
    None.

(** A registry that numbers the styles it is given, and a validation
    that rejects the key [invalid]. *)
Definition numbering (v : StyleSheet.Value) (n : nat) : StyleSheet.Value * nat :=
  (StyleSheet.number (Z.of_nat (S n)), S n).

Definition reject_invalid (key : string) (obj : list (string * StyleSheet.Value))
  : option string :=
  if bool_decide (key = "invalid") then Some "invalid style" else None.

Definition styles : list (string * StyleSheet.Value) :=
  [("container", StyleSheet.ref 10); ("hidden", StyleSheet.null);
   ("title", StyleSheet.ref 11)].

(** Styles of an argument that has an own key [__proto__], and the
    object [create] answers for them. *)
Definition styles_with_proto : list (string * StyleSheet.Value) :=
  [("container", StyleSheet.ref 10); ("__proto__", StyleSheet.null);
   ("hidden", StyleSheet.undefined); ("title", StyleSheet.ref 11)].

Definition created_with_proto : StyleSheetCreate.Created :=
  StyleSheetCreate.mkCreated
    {["container" := StyleSheet.number 1; "hidden" := StyleSheet.undefined;
      "title" := StyleSheet.number 2]}
    (Some StyleSheet.null).

(** Platforms: a phone and a browser, both refusing PORTRAIT_DOWN. *)
Definition platform (os : string) (fullscreen : Firestore.Promise unit)
    (orientationLock : Firestore.Promise string) : ScreenActions.Platform :=
  {| ScreenActions.OS := os;
     ScreenActions.Orientation := fun name => name;
     ScreenActions.requestFullscreen_answer := fullscreen;
     ScreenActions.exitFullscreen_answer := Firestore.Fulfilled tt;
     ScreenActions.lockAsync_answer := fun o =>
       if bool_decide (o = "PORTRAIT_DOWN")
       then Firestore.Rejected "unsupported" else Firestore.Fulfilled tt;
     ScreenActions.lockPlatformAsync_answer := Firestore.Rejected "unsupported";
     ScreenActions.supportsOrientationLockAsync_answer := fun _ => Firestore.Fulfilled false;
     ScreenActions.unlockAsync_answer := Firestore.Fulfilled tt;
     ScreenActions.getOrientationAsync_answer := Firestore.Fulfilled "LANDSCAPE_LEFT";
     ScreenActions.getOrientationLockAsync_answer := orientationLock |}.

Definition phone : ScreenActions.Platform :=
  platform "ios" (Firestore.Fulfilled tt) (Firestore.Fulfilled "DEFAULT").

Definition browser : ScreenActions.Platform :=
  platform "web" (Firestore.Fulfilled tt) (Firestore.Rejected "no lock").

Definition unmounted : ScreenActions.Screen :=
  ScreenActions.mkScreen (ScreenOrientationScreen.mkComponent None)
    ScreenActions.initial_state.

Definition rotation : ScreenActions.Event :=
  ScreenActions.mkEvent (Some "PORTRAIT_UP") (Some "DEFAULT").

End MoreSamples.

(** * Properties *)

(** ** ABI32_0_0RNBranchProperty *)

Section PropertyFacts.
Import Property.

Lemma isKindOfClass_property_class (o : Object) :
  isKindOfClass (Some o) ABI32_0_0RNBranchProperty = true
  <-> exists p, o = PropertyObject p.
Proof.
  split.
  - destruct o as [p | a c]; [eauto |].
    destruct c; vm_compute; discriminate.
  - intros [p ->]. reflexivity.
Qed.

Lemma isEqual_nil (self : Instance) : isEqual self nil = false.
Proof. reflexivity. Qed.

Lemma isEqual_foundation (self : Instance) (a : N) (c : FoundationClass) :
  isEqual self (Some (FoundationObject a c)) = false.
Proof. unfold isEqual. destruct (negb _); reflexivity. Qed.

(** C5. [isEqual:] on two property descriptors answers YES exactly when
    their setter selectors and their types coincide; the addresses of
    the two instances play no part, and anything that is not a
    descriptor (nil included) is unequal to every descriptor. *)
Theorem isEqual_setter_type (self other : Instance) :
  (isEqual self (Some (PropertyObject other)) = true
   <-> setterSelector self = setterSelector other /\ type self = type other)
  /\ isEqual self (Some (PropertyObject other))
     = isEqual (mkInstance 0 (setterSelector self) (type self))
               (Some (PropertyObject (mkInstance 1 (setterSelector other) (type other))))
  /\ (forall object : id,
        isEqual self object = true -> exists p, object = Some (PropertyObject p)).
Proof.
  split; [| split].
  - unfold isEqual. simpl.
    rewrite andb_true_iff, !bool_decide_eq_true. reflexivity.
  - reflexivity.
  - intros [[p | a c] |] Heq.
    + eauto.
    + rewrite isEqual_foundation in Heq. discriminate.
    + discriminate.
Qed.

(** Two distinct instances built by the class constructor from the same
    selector and type compare equal. *)
Example isEqual_distinct_instances :
  exists p q,
    propertyWithSetterSelector 16 (Some "setTitle:") (Foundation NSString) = Return (Some p)
    /\ propertyWithSetterSelector 32 (Some "setTitle:") (Foundation NSString) = Return (Some q)
    /\ p <> q /\ isEqual p (Some (PropertyObject q)) = true.
Proof.
  eexists _, _. split; [reflexivity |]. split; [reflexivity |].
  split; [discriminate | reflexivity].
Qed.

(** C6. The default initializer throws for every receiver and so never
    returns a descriptor; the designated initializer and the class
    constructor return a descriptor that carries the given selector and
    type. *)
Theorem init_throws_designated_returns (self : Instance) (addr : N)
    (selector : SEL) (ty : Class) :
  init self = Throw nil
  /\ (forall r, init self <> Return r)
  /\ initWithSetterSelector self selector ty
     = Return (Some (mkInstance (address self) selector ty))
  /\ propertyWithSetterSelector addr selector ty
     = Return (Some (mkInstance addr selector ty)).
Proof.
  repeat split. intros r Hr. discriminate Hr.
Qed.

(** C4. Applying a descriptor to a value whose runtime type is not
    compatible with the declared type answers [TypeMismatch] and hands
    the target back as it was, whatever the target exposes. *)
Theorem apply_type_mismatch (descriptor : Instance) (target : Target) (value : id) :
  isKindOfClass value (type descriptor) = false ->
  apply descriptor target value = (Err TypeMismatch, target).
Proof.
  intros Hk. unfold apply. rewrite Hk. reflexivity.
Qed.

Lemma apply_type_mismatch_witness :
  let d := mkInstance 16 (Some "setTitle:") (Foundation NSString) in
  let t := mkTarget {["setTitle:"]} ∅ in
  let v := Some (FoundationObject 48 NSNumber) in
  isKindOfClass v (type d) = false
  /\ apply d t v = (Err TypeMismatch, t).
Proof.
  split; [reflexivity |].
  apply (apply_type_mismatch
           (mkInstance 16 (Some "setTitle:") (Foundation NSString))
           (mkTarget {["setTitle:"]} ∅)
           (Some (FoundationObject 48 NSNumber))).
  reflexivity.
Defined.

End PropertyFacts.

Example apply_compatible_sets_field :
  Property.apply
    (Property.mkInstance 16 (Some "setTitle:") (Property.Foundation Property.NSString))
    (Property.mkTarget {["setTitle:"]} ∅)
    (Some (Property.FoundationObject 48 Property.NSMutableString))
  = (Ok tt,
     Property.mkTarget {["setTitle:"]}
       {["setTitle:" := Property.FoundationObject 48 Property.NSMutableString]}).
Proof. reflexivity. Qed.

(** ** PermissionsRequester *)

Section PermissionsFacts.
Import Permissions.

Lemma askForPermissions_no_manager (permissions : Ref (list string))
    (listener : Ref PermissionsListener) :
  askForPermissions (mkRequester None) permissions listener = (false, []).
Proof. reflexivity. Qed.

Lemma askForPermissions_manager (m : PermissionsManager)
    (permissions : Ref (list string)) (listener : Ref PermissionsListener) :
  askForPermissions (mkRequester (Some m)) permissions listener
  = (true, [requestPermissions m permissions 13 listener]).
Proof. reflexivity. Qed.

(** C8. For a requester built from a module registry: when the registry
    exports no PermissionsManager, [askForPermissions] answers false and
    issues no call; otherwise it answers true and issues the single call
    [requestPermissions(permissions, 13, listener)] on the exported
    manager. *)
Theorem askForPermissions_forwards (moduleRegistry : ModuleRegistry)
    (permissions : Ref (list string)) (listener : Ref PermissionsListener) :
  askForPermissions (new_PermissionsRequester moduleRegistry) permissions listener
  = match moduleRegistry !! PermissionsManager_class with
    | None => (false, [])
    | Some manager => (true, [requestPermissions manager permissions 13 listener])
    end.
Proof.
  unfold new_PermissionsRequester, getModule.
  destruct (moduleRegistry !! PermissionsManager_class) as [m |].
  - apply askForPermissions_manager.
  - apply askForPermissions_no_manager.
Qed.

End PermissionsFacts.

(** ** StyleSheet.compose *)

Section StyleSheetFacts.
Import StyleSheet.

Lemma neq_null_false (v : Value) : neq_null v = false <-> nullish v.
Proof.
  unfold nullish. destruct v; simpl; split;
    solve [ auto | discriminate | intros [E | E]; discriminate E ].
Qed.

Lemma neq_null_true (v : Value) : neq_null v = true <-> ~ nullish v.
Proof.
  rewrite <- neq_null_false. destruct (neq_null v); split; congruence.
Qed.

Lemma alloc_array_fresh (elements : list Value) (h : gmap N HeapObject) :
  exists a, h !! a = None
    /\ alloc_array elements h = (ref a, <[a := ArrayObject elements]> h).
Proof.
  exists (fresh (dom h)). split; [| reflexivity].
  apply not_elem_of_dom. apply is_fresh.
Qed.

(** C9. [compose] allocates the array [[style1, style2]] at an unused
    address when both operands are non-null; with exactly one non-null
    operand it answers that operand and leaves the heap as it was; with
    none it answers [style2], which is null or undefined, and leaves
    the heap as it was. *)
Theorem compose_cases (style1 style2 : Value) (h : gmap N HeapObject) :
  (~ nullish style1 -> ~ nullish style2 ->
     exists a, h !! a = None
       /\ compose style1 style2 h
          = (ref a, <[a := ArrayObject [style1; style2]]> h))
  /\ (~ nullish style1 -> nullish style2 -> compose style1 style2 h = (style1, h))
  /\ (nullish style1 -> ~ nullish style2 -> compose style1 style2 h = (style2, h))
  /\ (nullish style1 -> nullish style2 ->
       compose style1 style2 h = (style2, h) /\ nullish style2).
Proof.
  unfold compose.
  split; [| split; [| split]]; intros H1 H2.
  - apply neq_null_true in H1, H2. rewrite H1, H2. apply alloc_array_fresh.
  - apply neq_null_true in H1. apply neq_null_false in H2.
    rewrite H1, H2. reflexivity.
  - apply neq_null_false in H1. apply neq_null_true in H2.
    rewrite H1. reflexivity.
  - split; [| exact H2]. apply neq_null_false in H1. rewrite H1. reflexivity.
Qed.

(** The array built from two registered styles, and the reference
    equality kept for a missing operand. *)
Example compose_both :
  compose (number 3) (ref 0) {[0%N := PlainObject ∅]}
  = (ref 1, {[1%N := ArrayObject [number 3; ref 0]; 0%N := PlainObject ∅]}).
Proof. vm_compute. reflexivity. Qed.

Example compose_same_reference (h : gmap N HeapObject) :
  compose (ref 7) undefined h = (ref 7, h)
  /\ compose null (ref 7) h = (ref 7, h)
  /\ compose undefined null h = (null, h)
  /\ compose null undefined h = (undefined, h).
Proof. repeat split. Qed.

End StyleSheetFacts.

(** ** CollectionReference.add *)

Section FirestoreFacts.
Import Firestore.
Context `{Imports}.

Lemma doc_no_argument (s : Store) :
  doc None s
  = (if Path_isDocument (doc_path (auto_document s))
     then Return (auto_document s)
     else Throw doc_invariant_message,
     mkStore (this s) (S (generated s)) (writes s)).
Proof.
  unfold doc, auto_document, invariant. simpl.
  destruct (Path_isDocument _); reflexivity.
Qed.

Lemma doc_empty_string_is_auto (s : Store) : doc (Some EmptyString) s = doc None s.
Proof. reflexivity. Qed.

Lemma add_unfold (data : Data) (s : Store) :
  Path_isDocument (doc_path (auto_document s)) = true ->
  add data s
  = (Return (then_ (native_set (_firestore (this s))
                      (doc_path (auto_document s)) data)
               (fun _ => Promise_resolve (auto_document s))),
     mkStore (this s) (S (generated s)) (writes s ++ [(auto_document s, data)])).
Proof.
  intros Hdoc. unfold add. rewrite doc_no_argument, Hdoc. reflexivity.
Qed.

(** A rejected write rejects the promise of [add] with the same reason,
    and a path that is no document makes [add] throw before any write. *)
Lemma add_rejected (data : Data) (s : Store) (reason : string) :
  Path_isDocument (doc_path (auto_document s)) = true ->
  native_set (_firestore (this s)) (doc_path (auto_document s)) data = Rejected reason ->
  (add data s).1 = Return (Rejected reason).
Proof. intros Hdoc Hset. rewrite add_unfold, Hset by exact Hdoc. reflexivity. Qed.

Lemma add_not_document (data : Data) (s : Store) :
  Path_isDocument (doc_path (auto_document s)) = false ->
  (add data s).1 = Throw doc_invariant_message /\ writes (add data s).2 = writes s.
Proof.
  intros Hdoc. unfold add. rewrite doc_no_argument, Hdoc. split; reflexivity.
Qed.

(** The success path of [add]: when the child path named by the
    generated id is a document and the write is fulfilled, [add(data)]
    obtains its reference from
    [doc()] with no argument (a child of the collection path under a
    generated id), issues exactly the write [set(data)] on that
    reference, answers a promise fulfilled with that same reference,
    and leaves the receiver, its collection path included, as it
    was. *)
Theorem add_sets_and_resolves (data : Data) (s : Store) :
  Path_isDocument (Path_child (_collectionPath (this s)) (autoIds (generated s))) = true ->
  native_set (_firestore (this s))
    (Path_child (_collectionPath (this s)) (autoIds (generated s))) data = Fulfilled tt ->
  exists documentRef,
    (doc None s).1 = Return documentRef
    /\ doc_path documentRef = Path_child (_collectionPath (this s)) (autoIds (generated s))
    /\ doc_firestore documentRef = _firestore (this s)
    /\ (add data s).1 = Return (Fulfilled documentRef)
    /\ writes (add data s).2 = writes s ++ [(documentRef, data)]
    /\ this (add data s).2 = this s
    /\ _collectionPath (this (add data s).2) = _collectionPath (this s).
Proof.
  intros Hdoc Hset. exists (auto_document s).
  rewrite doc_no_argument, add_unfold by exact Hdoc. simpl.
  rewrite Hdoc, Hset. repeat split.
Qed.

(** C10. [add(data)] takes its reference from [doc()] with no
    argument, the child of the collection path under the next
    generated id.  When that child is a document, [add] issues the
    single write [set(data)] on the reference and answers a promise
    that is fulfilled with that same reference when the write is
    fulfilled, rejected with the reason of the write when the write is
    rejected, and unsettled while the write is; when the child is no
    document, [add] throws the message of the invariant and writes
    nothing.  Either way one generated id is used up and the receiver,
    its collection path included, is left as it was. *)
Theorem add_follows_write (data : Data) (s : Store) :
  doc_path (auto_document s)
  = Path_child (_collectionPath (this s)) (autoIds (generated s))
  /\ doc_firestore (auto_document s) = _firestore (this s)
  /\ (doc None s).1
     = (if Path_isDocument (doc_path (auto_document s))
        then Return (auto_document s)
        else Throw doc_invariant_message)
  /\ add data s
     = (if Path_isDocument (doc_path (auto_document s))
        then (Return
                match native_set (_firestore (this s))
                        (doc_path (auto_document s)) data with
                | Fulfilled _ => Fulfilled (auto_document s)
                | Rejected reason => Rejected reason
                | Pending => Pending
                end,
              mkStore (this s) (S (generated s))
                (writes s ++ [(auto_document s, data)]))
        else (Throw doc_invariant_message,
              mkStore (this s) (S (generated s)) (writes s)))
  /\ this (add data s).2 = this s
  /\ _collectionPath (this (add data s).2) = _collectionPath (this s).
Proof.
  split; [reflexivity |]. split; [reflexivity |].
  unfold add. rewrite doc_no_argument. simpl.
  destruct (Path_isDocument _) eqn:Hdoc; simpl.
  - destruct (native_set _ _ _) as [[] | reason |]; repeat split.
  - repeat split.
Qed.

End FirestoreFacts.

Lemma add_sets_and_resolves_witness :
  exists documentRef,
    (@Firestore.doc Samples.imports None Samples.store).1 = Firestore.Return documentRef
    /\ Firestore.doc_path documentRef = ["users"; "autoA"]
    /\ Firestore.doc_firestore documentRef = tt
    /\ (@Firestore.add Samples.imports 5%Z Samples.store).1
       = Firestore.Return (Firestore.Fulfilled documentRef)
    /\ Firestore.writes (@Firestore.add Samples.imports 5%Z Samples.store).2
       = [(documentRef, 5%Z)]
    /\ Firestore.this (@Firestore.add Samples.imports 5%Z Samples.store).2
       = Firestore.this Samples.store
    /\ Firestore._collectionPath (Firestore.this (@Firestore.add Samples.imports 5%Z Samples.store).2)
       = ["users"].
Proof.
  apply (@add_sets_and_resolves Samples.imports 5%Z Samples.store); reflexivity.
Defined.

(** On the collection whose writes are rejected the promise of [add]
    is rejected and delivers no reference; on a collection reference
    built on the path of a document [add] throws. *)
Lemma add_resolves_counterexample :
  (@Firestore.add Samples.imports 5%Z MoreSamples.locked_store).1
  = Firestore.Return (Firestore.Rejected "permission-denied")
  /\ ~ (exists documentRef,
          (@Firestore.add Samples.imports 5%Z MoreSamples.locked_store).1
          = Firestore.Return (Firestore.Fulfilled documentRef))
  /\ (@Firestore.add Samples.imports 5%Z MoreSamples.misplaced_store).1
     = Firestore.Throw Firestore.doc_invariant_message.
Proof.
  split; [reflexivity |]. split; [| reflexivity].
  intros [documentRef Hadd]. discriminate Hadd.
Qed.

Example add_rejected_write :
  (@Firestore.add Samples.imports 5%Z
     (Firestore.mkStore
        (@Firestore.new_CollectionReference Samples.imports tt ["locked"]) 0 [])).1
  = Firestore.Return (Firestore.Rejected "permission-denied").
Proof. reflexivity. Qed.

(** ** The module registry *)

Section RegistryFacts.
Import Registry.

Lemma startup_cons (q : Registration) (rest : list Registration) (r : Registry) :
  startup (q :: rest) r = startup rest (register q.1.1 q.1.2 q.2 r).2.
Proof. destruct q as [[ns n] d]. reflexivity. Qed.

Lemma lookup_register (ns : VersionNamespace) (n : string) (d : ModuleDescriptor) (r : Registry)
    (k : VersionNamespace * string) :
  (register ns n d r).2 !! k
  = match r !! k with
    | Some d0 => Some d0
    | None => if bool_decide ((ns, n) = k) then Some d else None
    end.
Proof.
  unfold register. destruct (r !! (ns, n)) as [d1 |] eqn:Hk; simpl.
  - destruct (r !! k) as [d0 |] eqn:Hk0; [reflexivity |].
    case_bool_decide; [congruence | reflexivity].
  - rewrite lookup_insert. case_decide as Heq; case_bool_decide; try congruence.
    + subst k. rewrite Hk. reflexivity.
    + destruct (r !! k); reflexivity.
Qed.

(** A pair resolves to what the registry held for it before start-up,
    and otherwise to the first request made for that very pair. *)
Lemma lookup_startup (requests : list Registration) (r : Registry)
    (ns : VersionNamespace) (n : string) :
  startup requests r !! (ns, n)
  = match r !! (ns, n) with
    | Some d0 => Some d0
    | None => first_request ns n requests
    end.
Proof.
  revert r. induction requests as [| [[ns' n'] d] rest IH]; intros r.
  - simpl. destruct (r !! (ns, n)); reflexivity.
  - rewrite startup_cons, IH, lookup_register. simpl.
    destruct (r !! (ns, n)); [reflexivity |].
    case_bool_decide; reflexivity.
Qed.

Lemma first_request_elem (ns : VersionNamespace) (n : string) (requests : list Registration)
    (d : ModuleDescriptor) :
  first_request ns n requests = Some d -> (ns, n, d) ∈ requests.
Proof.
  induction requests as [| [[ns' n'] d'] rest IH]; simpl; [discriminate |].
  case_bool_decide as Heq.
  - intros [= ->]. injection Heq as -> ->. apply list_elem_of_here.
  - intros Hf. apply list_elem_of_further, IH, Hf.
Qed.

Lemma first_request_none (ns : VersionNamespace) (n : string) (requests : list Registration) :
  first_request ns n requests = None -> forall d, (ns, n, d) ∉ requests.
Proof.
  induction requests as [| [[ns' n'] d'] rest IH]; simpl; intros Hf d Hin.
  - by apply not_elem_of_nil in Hin.
  - case_bool_decide as Heq; [discriminate |].
    apply elem_of_cons in Hin as [Hin | Hin].
    + injection Hin as -> -> _. by apply Heq.
    + exact (IH Hf d Hin).
Qed.

Lemma first_request_without (N1 N2 : VersionNamespace) (n : string)
    (requests : list Registration) :
  N1 ≠ N2 ->
  first_request N1 n (without_namespace N2 requests) = first_request N1 n requests.
Proof.
  intros Hne. unfold without_namespace.
  induction requests as [| [[ns' n'] d'] rest IH]; [reflexivity |].
  rewrite filter_cons. simpl. case_decide as Hns; simpl.
  - rewrite IH. reflexivity.
  - rewrite IH. case_bool_decide as Heq; [| reflexivity].
    injection Heq as -> ->. exfalso. exact (Hne Hns).
Qed.

(** C1. For distinct namespaces N1 and N2 and any start-up sequence of
    registration requests: resolving a name in N1 answers a descriptor
    that a request registered under (N1, name), or fails with
    [ModuleNotFound] when no request was made for (N1, name); and the
    answer is the same when every request addressed to N2 is left
    out. *)
Theorem resolve_namespace_isolation (requests : list Registration)
    (N1 N2 : VersionNamespace) (name : string) :
  N1 ≠ N2 ->
  match resolve N1 name (startup requests ∅) with
  | Ok d => (N1, name, d) ∈ requests
  | Err e => e = ModuleNotFound /\ forall d, (N1, name, d) ∉ requests
  end
  /\ resolve N1 name (startup requests ∅)
     = resolve N1 name (startup (without_namespace N2 requests) ∅).
Proof.
  intros Hne. unfold resolve. rewrite !lookup_startup, !lookup_empty.
  rewrite (first_request_without N1 N2 name requests Hne).
  split; [| reflexivity].
  destruct (first_request N1 name requests) as [d |] eqn:Hf.
  - by apply first_request_elem.
  - split; [reflexivity |]. by apply first_request_none.
Qed.

(** C3. When (namespace, name) is registered, a further [register] for
    the pair fails with [DuplicateModule], hands the registry back as
    it was, and the pair still resolves to the original descriptor. *)
Theorem register_duplicate (r : Registry) (namespace : VersionNamespace)
    (name : string) (original descriptor : ModuleDescriptor) :
  resolve namespace name r = Ok original ->
  register namespace name descriptor r = (Err DuplicateModule, r)
  /\ resolve namespace name (register namespace name descriptor r).2 = Ok original.
Proof.
  unfold resolve, register. intros Hres.
  destruct (r !! (namespace, name)) as [d |] eqn:Hk; [| discriminate].
  simpl. rewrite Hk. split; [reflexivity | exact Hres].
Qed.

Lemma register_twice (r : Registry) (namespace : VersionNamespace) (name : string)
    (d1 d2 : ModuleDescriptor) :
  register namespace name d1 r = (Ok tt, <[(namespace, name) := d1]> r) ->
  register namespace name d2 (register namespace name d1 r).2
  = (Err DuplicateModule, <[(namespace, name) := d1]> r).
Proof.
  intros ->. simpl. unfold register. rewrite lookup_insert_eq. reflexivity.
Qed.

End RegistryFacts.

(** ** The bridge dispatcher *)

Section BridgeFacts.
Import Bridge.

Lemma drain_satisfied (queue : list Attempt) (req : PendingRequest) (o : Outcome) :
  slot req = Some o -> drain queue req = (req, []).
Proof.
  intros Hs. induction queue as [| a rest IH]; [reflexivity |].
  simpl. unfold complete. rewrite Hs, IH. reflexivity.
Qed.

Lemma drain_first (a : Attempt) (rest : list Attempt) (req : PendingRequest) :
  slot req = None ->
  (drain (a :: rest) req).2 = [(request_id req, outcome a)]
  /\ slot (drain (a :: rest) req).1 = Some (outcome a).
Proof.
  intros Hs. simpl. unfold complete. rewrite Hs.
  erewrite drain_satisfied by reflexivity. split; reflexivity.
Qed.

(** C2. For the request a capability invocation creates and every
    queue of completion attempts, in whatever order the native threads
    got them in: at most one delivery is made; with no attempt none is
    made and the slot stays empty; otherwise the single delivery is the
    outcome of the attempt that came first (a result value or an
    error), tagged with the request id, and the slot holds it. *)
Theorem completion_exactly_once (id : N) (module : string) (args : list Json)
    (queue : list Attempt) :
  length (drain queue (invoke id module args)).2 <= 1
  /\ match queue with
     | [] =>
         (drain queue (invoke id module args)).2 = []
         /\ slot (drain queue (invoke id module args)).1 = None
     | first :: _ =>
         (drain queue (invoke id module args)).2 = [(id, outcome first)]
         /\ slot (drain queue (invoke id module args)).1 = Some (outcome first)
     end
  /\ forall queue', queue' ≡ₚ queue ->
       length (drain queue' (invoke id module args)).2
       = length (drain queue (invoke id module args)).2.
Proof.
  assert (Hlen : forall q : list Attempt,
             length (drain q (invoke id module args)).2 = if q is [] then 0 else 1).
  { intros [| a rest]; [reflexivity |].
    destruct (drain_first a rest (invoke id module args) eq_refl) as [-> _].
    reflexivity. }
  split; [| split].
  - rewrite Hlen. destruct queue; lia.
  - destruct queue as [| a rest]; [split; reflexivity |].
    apply (drain_first a rest (invoke id module args) eq_refl).
  - intros queue' Hperm. rewrite !Hlen.
    destruct queue as [| a rest].
    + apply Permutation_nil_r in Hperm as ->. reflexivity.
    + destruct queue'; [| reflexivity].
      by apply Permutation_nil_cons in Hperm.
Qed.

Lemma run_cons (st : Step) (rest : list Step) (l : Listeners) :
  run (st :: rest) l
  = ((run rest (step st l).1).1, (step st l).2 ++ (run rest (step st l).1).2).
Proof.
  simpl. destruct (step st l) as [l1 o1]. simpl.
  destruct (run rest l1) as [l2 o2]. reflexivity.
Qed.

Lemma step_cancelled_mono (st : Step) (l : Listeners) :
  cancelled l ⊆ cancelled (step st l).1.
Proof.
  destruct st as [sub p | sub |]; simpl; [done | set_solver |].
  destruct (queued l) as [| [sub p] rest]; done.
Qed.

Lemma step_no_delivery_cancelled (st : Step) (l : Listeners)
    (sub : Subscription) (p : Json) :
  sub ∈ cancelled l -> Delivered sub p ∉ (step st l).2.
Proof.
  intros Hc Hin. destruct st as [sub' p' | sub' |]; simpl in Hin.
  - by apply not_elem_of_nil in Hin.
  - apply list_elem_of_singleton in Hin. discriminate.
  - destruct (queued l) as [| [sub' p'] rest]; simpl in Hin.
    + by apply not_elem_of_nil in Hin.
    + case_bool_decide as Hd.
      * by apply not_elem_of_nil in Hin.
      * apply list_elem_of_singleton in Hin. injection Hin as -> _. by apply Hd.
Qed.

(** Once the token of a subscription is set, no interleaving delivers
    to it. *)
Lemma run_no_delivery_cancelled (steps : list Step) (l : Listeners)
    (sub : Subscription) (p : Json) :
  sub ∈ cancelled l -> Delivered sub p ∉ (run steps l).2.
Proof.
  revert l. induction steps as [| st rest IH]; intros l Hc.
  - simpl. apply not_elem_of_nil.
  - rewrite run_cons. simpl. rewrite elem_of_app. intros [Hin | Hin].
    + by apply (step_no_delivery_cancelled st l sub p).
    + apply (IH (step st l).1); [| exact Hin].
      by apply step_cancelled_mono.
Qed.

Lemma step_acknowledges (st : Step) (l : Listeners) (sub : Subscription)
    (o : Observation) (os : list Observation) :
  (step st l).2 = o :: os ->
  os = [] /\ (o = CancelAcknowledged sub -> sub ∈ cancelled (step st l).1).
Proof.
  destruct st as [sub' p' | sub' |]; simpl.
  - discriminate.
  - intros [= <- <-]. split; [reflexivity |]. intros [= ->]. set_solver.
  - destruct (queued l) as [| [sub' p'] rest]; simpl; [discriminate |].
    case_bool_decide; [discriminate |].
    intros [= <- <-]. split; [reflexivity | discriminate].
Qed.

(** C7. In every interleaving of emissions, cancellations and
    dispatches, from every state of the listeners: no callback of a
    subscription is delivered after the cancellation of that
    subscription has been acknowledged. *)
Theorem no_delivery_after_cancel (steps : list Step) (l : Listeners)
    (sub : Subscription) (before after : list Observation) :
  (run steps l).2 = before ++ CancelAcknowledged sub :: after ->
  forall payload, Delivered sub payload ∉ after.
Proof.
  revert l before. induction steps as [| st rest IH]; intros l before Hrun payload.
  - simpl in Hrun. by destruct before.
  - rewrite run_cons in Hrun. simpl in Hrun.
    destruct (step st l).2 as [| o os] eqn:Hstep.
    + simpl in Hrun. exact (IH _ _ Hrun payload).
    + destruct (step_acknowledges st l sub o os Hstep) as [-> Hack].
      simpl in Hrun. destruct before as [| b before'].
      * simpl in Hrun. injection Hrun as -> Hafter. rewrite <- Hafter.
        apply run_no_delivery_cancelled. by apply Hack.
      * simpl in Hrun. injection Hrun as _ Hafter.
        exact (IH _ _ Hafter payload).
Qed.

End BridgeFacts.

(** ** Witnesses and scenarios *)

Lemma resolve_namespace_isolation_witness :
  "V2" ≠ "V1"
  /\ match Registry.resolve "V2" "Settings"
             (Registry.startup Samples.settings_v1_only ∅) with
     | Ok d => ("V2", "Settings", d) ∈ Samples.settings_v1_only
     | Err e => e = ModuleNotFound
                /\ forall d, ("V2", "Settings", d) ∉ Samples.settings_v1_only
     end
  /\ Registry.resolve "V2" "Settings" (Registry.startup Samples.settings_v1_only ∅)
     = Registry.resolve "V2" "Settings"
         (Registry.startup (Registry.without_namespace "V1" Samples.settings_v1_only) ∅).
Proof.
  split; [discriminate |].
  apply (resolve_namespace_isolation Samples.settings_v1_only "V2" "V1" "Settings").
  discriminate.
Defined.

(** The scenario of the registry: "Settings" registered in V1 only. *)
Example settings_scenario :
  Registry.resolve "V2" "Settings" (Registry.startup Samples.settings_v1_only ∅)
  = Err ModuleNotFound
  /\ Registry.resolve "V1" "Settings" (Registry.startup Samples.settings_v1_only ∅)
     = Ok Samples.settings.
Proof. split; vm_compute; reflexivity. Qed.

Lemma register_duplicate_witness :
  Registry.resolve "V1" "Settings" (Registry.startup Samples.settings_v1_only ∅)
  = Ok Samples.settings
  /\ Registry.register "V1" "Settings"
       (Registry.mkModuleDescriptor "Settings" "V1" 2%N [])
       (Registry.startup Samples.settings_v1_only ∅)
     = (Err DuplicateModule, Registry.startup Samples.settings_v1_only ∅)
  /\ Registry.resolve "V1" "Settings"
       (Registry.register "V1" "Settings"
          (Registry.mkModuleDescriptor "Settings" "V1" 2%N [])
          (Registry.startup Samples.settings_v1_only ∅)).2
     = Ok Samples.settings.
Proof.
  split; [vm_compute; reflexivity |].
  apply (register_duplicate (Registry.startup Samples.settings_v1_only ∅)
           "V1" "Settings" Samples.settings
           (Registry.mkModuleDescriptor "Settings" "V1" 2%N [])).
  vm_compute. reflexivity.
Defined.

Lemma no_delivery_after_cancel_witness :
  (Bridge.run Samples.teardown_race Samples.no_listeners).2
  = [] ++ Bridge.CancelAcknowledged 1%N
          :: [Bridge.Delivered 2%N (Bridge.JString "LANDSCAPE")]
  /\ forall payload,
       Bridge.Delivered 1%N payload
       ∉ [Bridge.Delivered 2%N (Bridge.JString "LANDSCAPE")].
Proof.
  split; [vm_compute; reflexivity |].
  apply (no_delivery_after_cancel Samples.teardown_race Samples.no_listeners 1%N
           [] [Bridge.Delivered 2%N (Bridge.JString "LANDSCAPE")]).
  vm_compute. reflexivity.
Defined.

(** After [componentWillUnmount] of a screen that holds a listener, no
    interleaving delivers an orientation change to that listener. *)
Lemma componentWillUnmount_stops_delivery (sub : Bridge.Subscription)
    (l : Bridge.Listeners) (steps : list Bridge.Step) (payload : Bridge.Json) :
  Bridge.Delivered sub payload
  ∉ (Bridge.run steps
       (ScreenOrientationScreen.componentWillUnmount
          (ScreenOrientationScreen.mkComponent (Some sub)) l).1).2.
Proof.
  apply run_no_delivery_cancelled. simpl. set_solver.
Qed.

(** Two native threads race to complete request 42; the first outcome
    queued is the only one delivered. *)
Example completion_race :
  (Bridge.drain
     [Bridge.mkAttempt 7 (Bridge.Failure Timeout "no answer");
      Bridge.mkAttempt 9 (Bridge.ResultValue (Bridge.JNumber 1))]
     (Bridge.invoke 42 "ScreenOrientation" [])).2
  = [(42%N, Bridge.Failure Timeout "no answer")].
Proof. reflexivity. Qed.

(** * Further properties of the sources *)

(** ** ABI32_0_0RNBranchProperty: equality as a relation *)

Section PropertyRelation.
Import Property.

Lemma isEqual_descriptors (p q : Instance) :
  isEqual p (Some (PropertyObject q))
  = bool_decide (setterSelector p = setterSelector q)
    && bool_decide (type p = type q).
Proof. reflexivity. Qed.

Lemma isEqual_descriptors_true (p q : Instance) :
  isEqual p (Some (PropertyObject q)) = true
  <-> setterSelector p = setterSelector q /\ type p = type q.
Proof.
  rewrite isEqual_descriptors, andb_true_iff, !bool_decide_eq_true. reflexivity.
Qed.

(** X1. On descriptors [isEqual:] is reflexive, symmetric and
    transitive. *)
Theorem isEqual_equivalence (p q r : Instance) :
  isEqual p (Some (PropertyObject p)) = true
  /\ isEqual p (Some (PropertyObject q)) = isEqual q (Some (PropertyObject p))
  /\ (isEqual p (Some (PropertyObject q)) = true ->
      isEqual q (Some (PropertyObject r)) = true ->
      isEqual p (Some (PropertyObject r)) = true).
Proof.
  split; [| split].
  - apply isEqual_descriptors_true. split; reflexivity.
  - rewrite !isEqual_descriptors.
    rewrite (bool_decide_ext (setterSelector p = setterSelector q)
               (setterSelector q = setterSelector p)) by (split; congruence).
    rewrite (bool_decide_ext (type p = type q) (type q = type p))
      by (split; congruence).
    reflexivity.
  - rewrite !isEqual_descriptors_true. intros [Hs Ht] [Hs' Ht'].
    split; congruence.
Qed.

(** X2. Two descriptors made by the class constructor at any two
    addresses keep those addresses and compare equal exactly when they
    were made from the same selector and the same type. *)
Theorem constructed_equal_iff (a b : N) (s s' : SEL) (t t' : Class) :
  exists p q,
    propertyWithSetterSelector a s t = Return (Some p)
    /\ propertyWithSetterSelector b s' t' = Return (Some q)
    /\ address p = a /\ address q = b
    /\ (isEqual p (Some (PropertyObject q)) = true <-> s = s' /\ t = t').
Proof.
  eexists _, _. split; [reflexivity |]. split; [reflexivity |].
  split; [reflexivity |]. split; [reflexivity |].
  apply isEqual_descriptors_true.
Qed.

End PropertyRelation.

(** ** PermissionsRequester: what the requester sees of the registry *)

Section PermissionsRegistry.
Import Permissions.

(** X3. A requester built from a registry depends on the registry only
    through its PermissionsManager export: exporting any other module
    changes nothing, exporting a manager makes every request go to it
    with code 13, and without the export every request is refused
    with no call made. *)
Theorem requester_sees_only_manager (moduleRegistry : ModuleRegistry)
    (cls : string) (m : N) (permissions : Ref (list string))
    (listener : Ref PermissionsListener) :
  (cls ≠ PermissionsManager_class ->
     askForPermissions (new_PermissionsRequester (<[cls := m]> moduleRegistry))
       permissions listener
     = askForPermissions (new_PermissionsRequester moduleRegistry)
         permissions listener)
  /\ askForPermissions
       (new_PermissionsRequester (<[PermissionsManager_class := m]> moduleRegistry))
       permissions listener
     = (true, [requestPermissions m permissions 13 listener])
  /\ askForPermissions
       (new_PermissionsRequester (delete PermissionsManager_class moduleRegistry))
       permissions listener
     = (false, []).
Proof.
  unfold new_PermissionsRequester, getModule, askForPermissions, ModuleRegistry in *.
  simpl. split; [| split].
  - intros Hne. rewrite lookup_insert_ne by exact Hne. reflexivity.
  - rewrite lookup_insert_eq. reflexivity.
  - rewrite lookup_delete_eq. reflexivity.
Qed.

End PermissionsRegistry.

(** ** StyleSheet.compose: results and nesting *)

Section ComposeMore.
Import StyleSheet.

Lemma neq_null_nullish (v : Value) : neq_null v = false <-> nullish v.
Proof.
  unfold nullish. destruct v; simpl; split;
    solve [ auto | discriminate | intros [E | E]; discriminate E ].
Qed.

Lemma compose_non_null (s1 s2 : Value) (h : gmap N HeapObject) :
  neq_null s1 = true -> neq_null s2 = true ->
  compose s1 s2 h
  = (ref (fresh (dom h)), <[fresh (dom h) := ArrayObject [s1; s2]]> h).
Proof. intros H1 H2. unfold compose. rewrite H1, H2. reflexivity. Qed.

(** X4. The style [compose] answers is null or undefined exactly when
    both operands are. *)
Theorem compose_nullish_iff (style1 style2 : Value) (h : gmap N HeapObject) :
  nullish (compose style1 style2 h).1 <-> nullish style1 /\ nullish style2.
Proof.
  rewrite <- !neq_null_nullish. unfold compose.
  destruct (neq_null style1) eqn:H1, (neq_null style2) eqn:H2; simpl;
    rewrite ?H1, ?H2; split; try tauto; try (intros [? ?]; congruence);
    intros; congruence.
Qed.

(** X5. Composing three non-null styles nests: the outer array holds
    the reference of the inner array and the third style, the inner
    array holds the first two, the two arrays are distinct, and every
    object that was in the heap is still there unchanged. *)
Theorem compose_nests (a b c : Value) (h : gmap N HeapObject) :
  ~ nullish a -> ~ nullish b -> ~ nullish c ->
  exists inner outer,
    (compose a b h).1 = ref inner
    /\ (compose (compose a b h).1 c (compose a b h).2).1 = ref outer
    /\ inner ≠ outer
    /\ (compose (compose a b h).1 c (compose a b h).2).2 !! inner
       = Some (ArrayObject [a; b])
    /\ (compose (compose a b h).1 c (compose a b h).2).2 !! outer
       = Some (ArrayObject [ref inner; c])
    /\ forall x o, h !! x = Some o ->
         (compose (compose a b h).1 c (compose a b h).2).2 !! x = Some o.
Proof.
  intros Ha Hb Hc.
  assert (Ha' : neq_null a = true).
  { destruct (neq_null a) eqn:E; [reflexivity |]. by apply neq_null_nullish in E. }
  assert (Hb' : neq_null b = true).
  { destruct (neq_null b) eqn:E; [reflexivity |]. by apply neq_null_nullish in E. }
  assert (Hc' : neq_null c = true).
  { destruct (neq_null c) eqn:E; [reflexivity |]. by apply neq_null_nullish in E. }
  rewrite (compose_non_null a b h Ha' Hb'). simpl.
  set (i := fresh (dom h)).
  set (h1 := <[i := ArrayObject [a; b]]> h).
  rewrite (compose_non_null (ref i) c h1 eq_refl Hc'). simpl.
  set (o := fresh (dom h1)).
  assert (Hi : h !! i = None) by (apply not_elem_of_dom, is_fresh).
  assert (Ho : h1 !! o = None) by (apply not_elem_of_dom, is_fresh).
  assert (Hio : i ≠ o).
  { intros E. rewrite <- E in Ho. clear -Ho. subst h1.
    rewrite lookup_insert_eq in Ho. discriminate. }
  exists i, o.
  split; [reflexivity |]. split; [reflexivity |]. split; [exact Hio |].
  split; [| split].
  - rewrite lookup_insert_ne by congruence. unfold h1. apply lookup_insert_eq.
  - apply lookup_insert_eq.
  - intros x obj Hx.
    assert (x ≠ i) by congruence.
    assert (h1 !! x = Some obj) by (unfold h1; rewrite lookup_insert_ne; congruence).
    rewrite lookup_insert_ne by congruence. assumption.
Qed.

Lemma compose_nests_witness :
  exists inner outer,
    (StyleSheet.compose (number 1) (number 2) ∅).1 = ref inner
    /\ (compose (compose (number 1) (number 2) ∅).1 (number 3)
          (compose (number 1) (number 2) ∅).2).1 = ref outer
    /\ inner ≠ outer
    /\ (compose (compose (number 1) (number 2) ∅).1 (number 3)
          (compose (number 1) (number 2) ∅).2).2 !! inner
       = Some (ArrayObject [number 1; number 2])
    /\ (compose (compose (number 1) (number 2) ∅).1 (number 3)
          (compose (number 1) (number 2) ∅).2).2 !! outer
       = Some (ArrayObject [ref inner; number 3])
    /\ forall x o, (∅ : gmap N HeapObject) !! x = Some o ->
         (compose (compose (number 1) (number 2) ∅).1 (number 3)
            (compose (number 1) (number 2) ∅).2).2 !! x = Some o.
Proof.
  apply (compose_nests (number 1) (number 2) (number 3) ∅);
    unfold nullish; intros [E | E]; discriminate E.
Defined.

End ComposeMore.

(** ** CollectionReference: doc with an argument, failures of add *)

Section CollectionReferenceMore.
Import Firestore.
Context `{Imports}.

Lemma doc_auto (s : Store) :
  doc None s
  = (if Path_isDocument (Path_child (_collectionPath (this s)) (autoIds (generated s)))
     then Return (auto_document s)
     else Throw doc_invariant_message,
     mkStore (this s) (S (generated s)) (writes s)).
Proof.
  unfold doc, auto_document, invariant. simpl.
  destruct (Path_isDocument _); reflexivity.
Qed.

Lemma doc_named (p : string) (s : Store) :
  p ≠ EmptyString ->
  doc (Some p) s
  = (if Path_isDocument (Path_child (_collectionPath (this s)) p)
     then Return (mkDocumentReference (_firestore (this s))
                    (Path_child (_collectionPath (this s)) p))
     else Throw doc_invariant_message,
     s).
Proof.
  intros Hp. unfold doc, truthy, invariant.
  rewrite bool_decide_eq_false_2 by exact Hp. simpl.
  destruct (Path_isDocument _); reflexivity.
Qed.

(** X6. [doc] with a non-empty path answers the reference of the child
    named by that path when the child is a document and throws the
    message of the invariant otherwise, and in both cases generates no
    id; with the empty string it behaves as with no argument at all,
    which does the same for the child named by the next generated id
    and uses that id up. *)
Theorem doc_argument (p : string) (s : Store) :
  (p ≠ EmptyString ->
     doc (Some p) s
     = (if Path_isDocument (Path_child (_collectionPath (this s)) p)
        then Return (mkDocumentReference (_firestore (this s))
                       (Path_child (_collectionPath (this s)) p))
        else Throw doc_invariant_message,
        s))
  /\ doc (Some EmptyString) s = doc None s
  /\ doc None s
     = (if Path_isDocument
             (Path_child (_collectionPath (this s)) (autoIds (generated s)))
        then Return (mkDocumentReference (_firestore (this s))
                       (Path_child (_collectionPath (this s))
                          (autoIds (generated s))))
        else Throw doc_invariant_message,
        mkStore (this s) (S (generated s)) (writes s)).
Proof.
  split; [| split; [reflexivity |]].
  - intros Hp. exact (doc_named p s Hp).
  - exact (doc_auto s).
Qed.

(** X7. [doc] answers a reference only for a path that is a document,
    and whatever its argument it issues no write and leaves the
    receiver as it was. *)
Theorem doc_checks_and_frames (documentPath : option string) (s : Store) :
  (forall r, (doc documentPath s).1 = Return r -> Path_isDocument (doc_path r) = true)
  /\ writes (doc documentPath s).2 = writes s
  /\ this (doc documentPath s).2 = this s.
Proof.
  assert (Hcases : doc documentPath s = doc None s
                   \/ exists p, p ≠ EmptyString /\ documentPath = Some p).
  { destruct documentPath as [p |]; [| left; reflexivity].
    destruct (decide (p = EmptyString)) as [-> | Hp]; [left; reflexivity |].
    right. eauto. }
  destruct Hcases as [-> | (p & Hp & ->)].
  - rewrite doc_auto. simpl.
    destruct (Path_isDocument _) eqn:Hd; repeat split; intros r [= <-]; exact Hd.
  - rewrite (doc_named p s Hp). simpl.
    destruct (Path_isDocument _) eqn:Hd; repeat split; intros r [= <-]; exact Hd.
Qed.

Lemma add_cases (data : Data) (s : Store) :
  add data s
  = if Path_isDocument (doc_path (auto_document s))
    then (Return (then_ (native_set (_firestore (this s))
                           (doc_path (auto_document s)) data)
                    (fun _ => Promise_resolve (auto_document s))),
          mkStore (this s) (S (generated s)) (writes s ++ [(auto_document s, data)]))
    else (Throw doc_invariant_message,
          mkStore (this s) (S (generated s)) (writes s)).
Proof.
  unfold add. rewrite doc_auto. simpl.
  destruct (Path_isDocument _); reflexivity.
Qed.

(** X8. When the child path named by the generated id is no document,
    [add] throws the message of the invariant before anything is
    written; the id is used up all the same. *)
Theorem add_throws_before_write (data : Data) (s : Store) :
  Path_isDocument (Path_child (_collectionPath (this s)) (autoIds (generated s))) = false ->
  (add data s).1 = Throw doc_invariant_message
  /\ writes (add data s).2 = writes s
  /\ generated (add data s).2 = S (generated s)
  /\ this (add data s).2 = this s.
Proof.
  intros Hd. rewrite add_cases. simpl. rewrite Hd. repeat split.
Qed.

(** X9. When the write of [add] is rejected, or never settles, so is
    the promise [add] answers, with the same reason; the write has
    been issued on the new reference all the same. *)
Theorem add_propagates_failure (data : Data) (s : Store) :
  Path_isDocument (Path_child (_collectionPath (this s)) (autoIds (generated s))) = true ->
  native_set (_firestore (this s))
    (Path_child (_collectionPath (this s)) (autoIds (generated s))) data
  ≠ Fulfilled tt ->
  (add data s).1
  = Return (match native_set (_firestore (this s))
                    (Path_child (_collectionPath (this s)) (autoIds (generated s)))
                    data with
            | Rejected reason => Rejected reason
            | _ => Pending
            end)
  /\ writes (add data s).2 = writes s ++ [(auto_document s, data)].
Proof.
  intros Hd Hset. rewrite add_cases. simpl. rewrite Hd. simpl.
  split; [| reflexivity].
  destruct (native_set _ _ _) as [[] | reason |]; simpl;
    [congruence | reflexivity | reflexivity].
Qed.

(** X10. Two calls of [add] in a row take two consecutive generated
    ids; when those ids differ and naming a child is injective, the
    two writes go to two different documents, in the order of the
    calls. *)
Theorem add_twice_distinct (d1 d2 : Data) (s : Store) :
  (forall p a b, Path_child p a = Path_child p b -> a = b) ->
  autoIds (generated s) ≠ autoIds (S (generated s)) ->
  Path_isDocument (Path_child (_collectionPath (this s)) (autoIds (generated s))) = true ->
  Path_isDocument (Path_child (_collectionPath (this s)) (autoIds (S (generated s)))) = true ->
  exists r1 r2,
    writes (add d2 (add d1 s).2).2 = writes s ++ [(r1, d1); (r2, d2)]
    /\ doc_path r1 = Path_child (_collectionPath (this s)) (autoIds (generated s))
    /\ doc_path r2 = Path_child (_collectionPath (this s)) (autoIds (S (generated s)))
    /\ doc_path r1 ≠ doc_path r2
    /\ generated (add d2 (add d1 s).2).2 = S (S (generated s)).
Proof.
  intros Hinj Hids Hd1 Hd2.
  rewrite (add_cases d1 s). simpl. rewrite Hd1. simpl.
  rewrite add_cases. simpl. rewrite Hd2. simpl.
  eexists _, _. split; [rewrite <- app_assoc; reflexivity |].
  split; [reflexivity |]. split; [reflexivity |].
  split; [| reflexivity].
  simpl. intros E. apply Hinj in E. exact (Hids E).
Qed.

End CollectionReferenceMore.

(** ** The entry point: merging the manifest into process.env *)

Section AppEntryFacts.
Import Bridge AppEntry.

Lemma lookup_foldl_insert (entries : list (string * Json)) (m : gmap string Json)
    (k : string) :
  foldl (fun acc e => <[e.1 := e.2]> acc) m entries !! k
  = match props_of entries !! k with
    | Some v => Some v
    | None => m !! k
    end.
Proof.
  unfold props_of.
  induction entries as [| e rest IH] using rev_ind.
  - simpl. rewrite lookup_empty. reflexivity.
  - rewrite !foldl_app. simpl.
    destruct (decide (e.1 = k)) as [<- | Hne].
    + rewrite !lookup_insert_eq. reflexivity.
    + rewrite !lookup_insert_ne by exact Hne. exact IH.
Qed.

Lemma foldl_insert_idempotent (entries : list (string * Json)) (m : gmap string Json) :
  foldl (fun acc e => <[e.1 := e.2]> acc)
    (foldl (fun acc e => <[e.1 := e.2]> acc) m entries) entries
  = foldl (fun acc e => <[e.1 := e.2]> acc) m entries.
Proof.
  apply map_eq. intros k. rewrite !lookup_foldl_insert.
  destruct (props_of entries !! k); reflexivity.
Qed.

Lemma props_of_absent (entries : list (string * Json)) (k : string) :
  props_of entries !! k = None -> k ∉ entries.*1.
Proof.
  unfold props_of. induction entries as [| e rest IH] using rev_ind.
  - intros _. apply not_elem_of_nil.
  - rewrite foldl_app, fmap_app. simpl.
    destruct (decide (e.1 = k)) as [<- | Hne].
    + rewrite lookup_insert_eq. discriminate.
    + rewrite lookup_insert_ne by exact Hne. intros Hk.
      rewrite elem_of_app, list_elem_of_singleton. intros [Hin | Heq].
      * exact (IH Hk Hin).
      * congruence.
Qed.

(** An assignment to a key other than [__proto__] stores an own
    property and nothing else. *)
Lemma set_property_plain (o : JSObject) (key : string) (v : Json) :
  key ≠ "__proto__" ->
  set_property o key v = {| own := <[key := v]> (own o); prototype := prototype o |}.
Proof.
  intros Hk. unfold set_property.
  rewrite (bool_decide_eq_false_2 _ Hk). simpl.
  destruct (own o !! key); reflexivity.
Qed.



Lemma assign_without_proto (entries : list (string * Json)) (o : JSObject) :
  "__proto__" ∉ entries.*1 ->
  foldl (fun acc e => set_property acc e.1 e.2) o entries
  = {| own := foldl (fun acc e => <[e.1 := e.2]> acc) (own o) entries;
       prototype := prototype o |}.
Proof.
  induction entries as [| e rest IH] using rev_ind; intros Hk.
  - destruct o. reflexivity.
  - rewrite fmap_app, elem_of_app in Hk. simpl in Hk.
    rewrite list_elem_of_singleton in Hk.
    rewrite !foldl_app. simpl. rewrite IH by tauto.
    rewrite set_property_plain by (intros E; apply Hk; right; congruence).
    reflexivity.
Qed.

Lemma pretty_N_go_not_underscore (x : N) (s s' : string) :
  s ≠ "_" +:+ s' -> pretty_N_go x s ≠ "_" +:+ s'.
Proof.
  revert s. induction (N.lt_wf_0 x) as [x _ IH]; intros s Hs.
  assert (x = 0 \/ 0 < x)%N as [-> | Hpos] by lia.
  - rewrite pretty_N_go_0. exact Hs.
  - rewrite pretty_N_go_step by exact Hpos. apply IH.
    + by apply N.div_lt.
    + unfold pretty_N_char. repeat case_match; discriminate.
Qed.

Lemma pretty_index_not_proto (i : nat) : pretty i ≠ "__proto__".
Proof.
  unfold pretty, pretty_nat, pretty, pretty_N.
  case_decide; [discriminate |].
  apply (pretty_N_go_not_underscore (N.of_nat i) "" "_proto__"). discriminate.
Qed.

Lemma indexed_without_proto {A} (l : list A) : "__proto__" ∉ (indexed l).*1.
Proof.
  unfold indexed. intros Hin.
  apply list_elem_of_fmap in Hin as ([k x] & Hk & Hin). simpl in Hk.
  apply elem_of_lookup_imap in Hin as (i & y & Heq & _).
  injection Heq as -> _. symmetry in Hk. exact (pretty_index_not_proto i Hk).
Qed.

Lemma Object_assign_idempotent (target : JSObject) (source : option Json) :
  "__proto__" ∉ (own_enumerable source).*1 ->
  Object_assign (Object_assign target source) source = Object_assign target source.
Proof.
  intros Hk. unfold Object_assign.
  rewrite (assign_without_proto _ target Hk).
  rewrite (assign_without_proto _ _ Hk). simpl.
  rewrite foldl_insert_idempotent. reflexivity.
Qed.

(** X11. When the manifest's [env] is undefined, null, a boolean, a
    number or a string, the entry point leaves [process.env] as it was
    and installs the geolocation polyfill. *)
Theorem main_env_not_an_object (manifest env : option Json) (rt : Runtime) :
  get_property manifest "env" = Firestore.Return env ->
  (forall items, env ≠ Some (JList items)) ->
  (forall entries, env ≠ Some (JMap entries)) ->
  main manifest rt
  = (Firestore.Return tt,
     {| process_env := process_env rt; geolocation_polyfilled := true |}).
Proof.
  intros Hget Hl Hm. unfold main. rewrite Hget.
  destruct env as [[| b | n | s | items | entries] |]; simpl;
    try reflexivity.
  - by destruct (Hl items).
  - by destruct (Hm entries).
Qed.


(** X13. When the manifest itself is undefined or null, reading its
    [env] throws a TypeError: [process.env] is untouched and the
    polyfill is not installed. *)
Theorem main_without_manifest (manifest : option Json) (rt : Runtime) :
  manifest = None \/ manifest = Some JNull ->
  main manifest rt = (Firestore.Throw "TypeError", rt).
Proof. intros [-> | ->]; reflexivity. Qed.

(** X14. For a manifest whose [env], if an object, has no own key
    [__proto__], running the entry point a second time changes
    nothing: outcome and runtime are those of the first run. *)
Theorem main_idempotent (manifest : option Json) (rt : Runtime) :
  (forall entries,
     get_property manifest "env" = Firestore.Return (Some (JMap entries)) ->
     props_of entries !! "__proto__" = None) ->
  main manifest (main manifest rt).2 = main manifest rt.
Proof.
  intros Hproto. unfold main.
  destruct (get_property manifest "env") as [env | m] eqn:Hget; simpl;
    [| reflexivity].
  case_bool_decide; simpl; [| reflexivity].
  rewrite Object_assign_idempotent; [reflexivity |].
  destruct env as [[| b | n | s | items | entries] |]; simpl;
    try apply not_elem_of_nil.
  - apply indexed_without_proto.
  - apply indexed_without_proto.
  - apply props_of_absent, Hproto. reflexivity.
Qed.

(** An [env] with the own key [__proto__] bound to [null]: the first
    run makes the prototype of [process.env] null and stores no key,
    the second run stores the key. *)
Example main_null_proto_twice :
  process_env (main MoreSamples.manifest_null_proto MoreSamples.runtime).2
  = {| own := own (process_env MoreSamples.runtime); prototype := NullPrototype |}
  /\ own (process_env
            (main MoreSamples.manifest_null_proto
               (main MoreSamples.manifest_null_proto MoreSamples.runtime).2).2)
     !! "__proto__"
     = Some JNull.
Proof. split; vm_compute; reflexivity. Qed.

End AppEntryFacts.

(** ** StyleSheet.setStyleAttributePreprocessor *)

Section StyleAttributesFacts.
Import StyleAttributes.

Lemma store_own (table : Table) (property : string) (v : JS)
    (props : gmap string JS) :
  own table !! property = Some v ->
  store table property props
  = {| own := <[property := Object props]> (own table);
       prototype := prototype table |}.
Proof. intros Ho. unfold store. rewrite Ho. reflexivity. Qed.

Lemma read_own (table : Table) (property : string) (v : JS) :
  own table !! property = Some v -> read table property = v.
Proof. intros Ho. unfold read. rewrite Ho. reflexivity. Qed.

(** An entry that reads as a string or as [null] is a data property,
    of the table or of its prototype object, so that assigning to it
    stores an own entry. *)
Lemma store_data_property (table : Table) (property : string)
    (props : gmap string JS) :
  (exists s, read table property = Str s) \/ read table property = Null ->
  store table property props
  = {| own := <[property := Object props]> (own table);
       prototype := prototype table |}.
Proof.
  unfold read, store, reaches_setter, inherited_method.
  destruct (own table !! property) as [v |]; [reflexivity |].
  destruct (prototype table) as [p |].
  - destruct (p !! property) as [v |] eqn:Hp.
    + intros _. case_bool_decide as Hk; [| reflexivity].
      subst property. rewrite Hp. reflexivity.
    + case_bool_decide; [intros [[s Hs] | Hs]; discriminate |].
      case_bool_decide; intros [[s Hs] | Hs]; discriminate.
  - case_bool_decide; [intros [[s Hs] | Hs]; discriminate |].
    case_bool_decide; intros [[s Hs] | Hs]; discriminate.
Qed.

Lemma set_object (dev : bool) (property : string) (process : JS)
    (table : Table) (props : gmap string JS) :
  own table !! property = Some (Object props) ->
  setStyleAttributePreprocessor dev property process table
  = (Firestore.Return tt,
     {| own := <[property := Object (<["process" := process]> props)]> (own table);
        prototype := prototype table |},
     if dev then overwrite_warning props property else []).
Proof.
  intros Ho. unfold setStyleAttributePreprocessor, overwrite_warning.
  rewrite (read_own table property _ Ho). simpl.
  rewrite (store_own table property _ _ Ho).
  destruct dev; [| reflexivity].
  case_bool_decide; reflexivity.
Qed.

Lemma set_string (dev : bool) (property : string) (process : JS)
    (table : Table) (s : string) :
  read table property = Str s ->
  setStyleAttributePreprocessor dev property process table
  = (Firestore.Return tt,
     {| own := <[property := Object {["process" := process]}]> (own table);
        prototype := prototype table |}, []).
Proof.
  intros Hr. unfold setStyleAttributePreprocessor. rewrite Hr. simpl.
  rewrite store_data_property by (left; eauto).
  destruct dev; reflexivity.
Qed.

(** X15. For a property that reads in the table as neither a string
    nor an object (a missing entry, a boolean, a number, a function),
    the call leaves the table as it was and reports the property on
    [console.error], in development and in production alike. *)
Theorem preprocessor_invalid_attribute (dev : bool) (property : string)
    (process : JS) (table : Table) :
  typeof (read table property) ≠ "string" ->
  typeof (read table property) ≠ "object" ->
  setStyleAttributePreprocessor dev property process table
  = (Firestore.Return tt, table,
     [console_error (property +:+ " is not a valid style attribute")]).
Proof.
  intros Hs Ho. unfold setStyleAttributePreprocessor.
  rewrite (bool_decide_eq_false_2 _ Hs), (bool_decide_eq_false_2 _ Ho).
  reflexivity.
Qed.

(** X16. For a property whose own table entry is an object, the call
    stores a new object that has [process] as its preprocessor and
    every other key of the old entry as it was; no other entry of the
    table changes, nor does its prototype. *)
Theorem preprocessor_object_attribute (dev : bool) (property : string)
    (process : JS) (table : Table) (props : gmap string JS) :
  own table !! property = Some (Object props) ->
  exists props',
    own (setStyleAttributePreprocessor dev property process table).1.2 !! property
    = Some (Object props')
    /\ props' !! "process" = Some process
    /\ (forall key, key ≠ "process" -> props' !! key = props !! key)
    /\ (forall other, other ≠ property ->
          own (setStyleAttributePreprocessor dev property process table).1.2 !! other
          = own table !! other)
    /\ prototype (setStyleAttributePreprocessor dev property process table).1.2
       = prototype table
    /\ (setStyleAttributePreprocessor dev property process table).1.1
       = Firestore.Return tt.
Proof.
  intros Hr. rewrite (set_object dev property process table props Hr). simpl.
  exists (<["process" := process]> props).
  split; [apply lookup_insert_eq |]. split; [apply lookup_insert_eq |].
  split; [| split; [| split; reflexivity]].
  - intros key Hk. apply lookup_insert_ne. congruence.
  - intros other Ho. apply lookup_insert_ne. congruence.
Qed.

(** For a property that reads in the table as a string, the call
    stores an own entry whose only key is [process], with no
    warning. *)
Theorem preprocessor_string_attribute (dev : bool) (property : string)
    (process : JS) (table : Table) (s : string) :
  read table property = Str s ->
  own (setStyleAttributePreprocessor dev property process table).1.2 !! property
  = Some (Object {["process" := process]})
  /\ (setStyleAttributePreprocessor dev property process table).2 = [].
Proof.
  intros Hr. rewrite (set_string dev property process table s Hr). simpl.
  split; [apply lookup_insert_eq | reflexivity].
Qed.

(** X17. The last preprocessor set for an object attribute wins: the
    table after two calls is the table after the second alone, and in
    development the second call warns that it overwrites the function
    set by the first. *)
Theorem preprocessor_last_wins (dev : bool) (property : string) (f : N) (g : JS)
    (table : Table) (props : gmap string JS) :
  own table !! property = Some (Object props) ->
  (setStyleAttributePreprocessor dev property g
     (setStyleAttributePreprocessor dev property (Function f) table).1.2).1.2
  = (setStyleAttributePreprocessor dev property g table).1.2
  /\ (setStyleAttributePreprocessor dev property g
        (setStyleAttributePreprocessor dev property (Function f) table).1.2).2
     = if dev
       then [console_warn ("Overwriting " +:+ property
                           +:+ " style attribute preprocessor")]
       else [].
Proof.
  intros Hr.
  rewrite (set_object dev property (Function f) table props Hr). simpl.
  rewrite (set_object dev property g _ (<["process" := Function f]> props))
    by apply lookup_insert_eq.
  rewrite (set_object dev property g table props Hr). simpl.
  split.
  - rewrite insert_insert_eq. rewrite insert_insert_eq. reflexivity.
  - destruct dev; [| reflexivity].
    unfold overwrite_warning. rewrite lookup_insert_eq. reflexivity.
Qed.

(** X18. For a property that reads in the table as [null], which
    passes the [typeof] test for objects: in development reading
    [value.process] throws a TypeError and the table is left as it
    was; in production the own entry becomes an object whose only key
    is [process]. *)
Theorem preprocessor_null_attribute (property : string) (process : JS)
    (table : Table) :
  read table property = Null ->
  setStyleAttributePreprocessor true property process table
  = (Firestore.Throw "TypeError", table, [])
  /\ setStyleAttributePreprocessor false property process table
     = (Firestore.Return tt,
        {| own := <[property := Object {["process" := process]}]> (own table);
           prototype := prototype table |}, []).
Proof.
  intros Hr. unfold setStyleAttributePreprocessor. rewrite Hr. simpl.
  rewrite store_data_property by (right; exact Hr).
  split; reflexivity.
Qed.

(** The property [__proto__] of a table that has no such entry reads
    as [Object.prototype], an object: no error is reported, and the
    assignment makes the new object the prototype of the table. *)
Example preprocessor_proto_attribute :
  setStyleAttributePreprocessor true "__proto__" (Function 9) MoreSamples.attributes
  = (Firestore.Return tt,
     {| own := own MoreSamples.attributes;
        prototype := Some {["process" := Function 9]} |}, []).
Proof. vm_compute. reflexivity. Qed.

End StyleAttributesFacts.

(** ** StyleSheet.create *)

Section AssignFacts.
Import StyleSheet StyleSheetCreate.

Lemma assign_plain (result : Created) (key : string) (v : Value) :
  key ≠ "__proto__" ->
  assign result key v
  = {| created_props := <[key := v]> (created_props result);
       created_prototype := created_prototype result |}.
Proof.
  intros Hk. unfold assign. rewrite (bool_decide_eq_false_2 _ Hk). simpl.
  destruct (created_props result !! key); reflexivity.
Qed.

(** On an object that has no own [__proto__] and still has
    [Object.prototype] as its prototype, an assignment to [__proto__]
    stores no property. *)
Lemma assign_proto (result : Created) (v : Value) :
  created_props result !! "__proto__" = None ->
  created_prototype result = None ->
  created_props (assign result "__proto__" v) = created_props result
  /\ created_prototype (assign result "__proto__" v)
     = match v with
       | null | ref _ => Some v
       | _ => None
       end.
Proof.
  intros Hown Hp. unfold assign. rewrite Hown, Hp. simpl.
  destruct v; simpl; rewrite ?Hp; split; reflexivity.
Qed.

Lemma loop_invariant_step (acc : Created) (k : string) (v x : Value)
    (rest : list (string * Value)) :
  loop_invariant acc ((k, v) :: rest) -> loop_invariant (assign acc k x) rest.
Proof.
  intros (Hown & Hp & Hnd). simpl in Hnd.
  apply NoDup_cons in Hnd as [Hk Hnd].
  destruct (decide (k = "__proto__")) as [-> | Hne].
  - destruct Hp as [Hp | Hp]; [| exfalso; apply Hp; apply list_elem_of_here].
    destruct (assign_proto acc x Hown Hp) as [Hprops _].
    split; [by rewrite Hprops |]. split; [right; exact Hk | exact Hnd].
  - rewrite (assign_plain acc k x Hne). split; [| split; [| exact Hnd]].
    + simpl. rewrite lookup_insert_ne by exact Hne. exact Hown.
    + simpl. destruct Hp as [Hp | Hp]; [left; exact Hp |].
      right. intros Hin. apply Hp. simpl. by apply list_elem_of_further.
Qed.

Lemma assign_dom (acc : Created) (k : string) (v x : Value)
    (rest : list (string * Value)) :
  loop_invariant acc ((k, v) :: rest) ->
  dom (created_props (assign acc k x)) ∪ (list_to_set rest.*1 ∖ {["__proto__"]})
  = dom (created_props acc)
    ∪ (list_to_set ((k, v) :: rest).*1 ∖ {["__proto__"]} : gset string).
Proof.
  intros (Hown & Hp & Hnd).
  destruct (decide (k = "__proto__")) as [-> | Hne].
  - destruct Hp as [Hp | Hp]; [| exfalso; apply Hp; apply list_elem_of_here].
    destruct (assign_proto acc x Hown Hp) as [-> _].
    apply set_eq. intros y. simpl.
    rewrite !elem_of_union, !elem_of_difference, elem_of_union, !elem_of_singleton.
    tauto.
  - rewrite (assign_plain acc k x Hne). simpl. rewrite dom_insert_L.
    apply set_eq. intros y.
    rewrite !elem_of_union, !elem_of_difference, !elem_of_union, !elem_of_singleton.
    split; [| tauto]. intros [[-> | Hy] | Hy]; tauto.
Qed.

Lemma assign_other (acc : Created) (key k : string) (x : Value) :
  key ≠ k -> created_props (assign acc key x) !! k = created_props acc !! k.
Proof.
  intros Hk. unfold assign.
  destruct (created_props acc !! key); simpl; [by rewrite lookup_insert_ne |].
  destruct (bool_decide (key = "__proto__") && reaches_setter (created_prototype acc));
    simpl; [| by rewrite lookup_insert_ne].
  destruct x; reflexivity.
Qed.

End AssignFacts.

Section CreateFacts.
Import StyleSheet StyleSheetCreate.

Variable PropRegistry : Type.
Variable register : Value -> PropRegistry -> Value * PropRegistry.
Variable validateStyle : string -> list (string * Value) -> option string.

Local Abbreviation loop := (create_loop PropRegistry register validateStyle).

Lemma create_loop_dom (obj rest : list (string * Value))
    (acc result : Created) (reg reg' : PropRegistry) :
  loop obj rest (acc, reg) = (Firestore.Return result, reg') ->
  loop_invariant acc rest ->
  dom (created_props result)
  = dom (created_props acc) ∪ (list_to_set rest.*1 ∖ {["__proto__"]}).
Proof.
  revert acc reg. induction rest as [| [k v] rest IH]; intros acc reg.
  - simpl. intros [= <- _] _. apply set_eq. intros y.
    rewrite elem_of_union, elem_of_difference, elem_of_empty. tauto.
  - simpl. unfold create_key.
    destruct (validateStyle k obj); [discriminate |]. simpl.
    intros Hl Hinv.
    destruct (truthy v).
    + destruct (register v reg) as [id reg1].
      rewrite (IH _ _ Hl (loop_invariant_step acc k v id rest Hinv)).
      apply (assign_dom acc k v id rest Hinv).
    + rewrite (IH _ _ Hl (loop_invariant_step acc k v v rest Hinv)).
      apply (assign_dom acc k v v rest Hinv).
Qed.

Lemma create_loop_other (obj rest : list (string * Value))
    (acc result : Created) (reg reg' : PropRegistry) (k : string) :
  loop obj rest (acc, reg) = (Firestore.Return result, reg') ->
  k ∉ rest.*1 -> created_props result !! k = created_props acc !! k.
Proof.
  revert acc reg. induction rest as [| [k' v] rest IH]; intros acc reg.
  - simpl. intros [= <- _] _. reflexivity.
  - simpl. unfold create_key.
    destruct (validateStyle k' obj); [discriminate |]. simpl.
    intros Hl Hk. apply not_elem_of_cons in Hk as [Hne Hk].
    destruct (truthy v).
    + destruct (register v reg) as [id reg1].
      rewrite (IH _ _ Hl Hk). apply assign_other. congruence.
    + rewrite (IH _ _ Hl Hk). apply assign_other. congruence.
Qed.

Lemma create_loop_prototype (obj rest : list (string * Value))
    (acc result : Created) (reg reg' : PropRegistry) :
  loop obj rest (acc, reg) = (Firestore.Return result, reg') ->
  "__proto__" ∉ rest.*1 -> created_prototype result = created_prototype acc.
Proof.
  revert acc reg. induction rest as [| [k' v] rest IH]; intros acc reg.
  - simpl. intros [= <- _] _. reflexivity.
  - simpl. unfold create_key.
    destruct (validateStyle k' obj); [discriminate |]. simpl.
    intros Hl Hk. apply not_elem_of_cons in Hk as [Hne Hk].
    destruct (truthy v).
    + destruct (register v reg) as [id reg1].
      rewrite (IH _ _ Hl Hk), assign_plain by congruence. reflexivity.
    + rewrite (IH _ _ Hl Hk), assign_plain by congruence. reflexivity.
Qed.

Lemma create_loop_falsy (obj rest : list (string * Value))
    (acc result : Created) (reg reg' : PropRegistry)
    (k : string) (v : Value) :
  loop obj rest (acc, reg) = (Firestore.Return result, reg') ->
  NoDup rest.*1 -> (k, v) ∈ rest -> truthy v = false -> k ≠ "__proto__" ->
  created_props result !! k = Some v.
Proof.
  revert acc reg. induction rest as [| [k' v'] rest IH]; intros acc reg.
  - intros _ _ Hin. by apply not_elem_of_nil in Hin.
  - simpl. unfold create_key.
    destruct (validateStyle k' obj); [discriminate |]. simpl.
    intros Hl Hnd Hin Hf Hk. apply NoDup_cons in Hnd as [Hk' Hnd].
    apply elem_of_cons in Hin as [[= -> ->] | Hin].
    + rewrite Hf in Hl.
      rewrite (create_loop_other _ _ _ _ _ _ _ Hl Hk').
      rewrite (assign_plain acc k' v' Hk). apply lookup_insert_eq.
    + destruct (truthy v').
      * destruct (register v' reg) as [id reg1]. exact (IH _ _ Hl Hnd Hin Hf Hk).
      * exact (IH _ _ Hl Hnd Hin Hf Hk).
Qed.

Lemma create_loop_null_proto (obj rest : list (string * Value))
    (acc result : Created) (reg reg' : PropRegistry) :
  loop obj rest (acc, reg) = (Firestore.Return result, reg') ->
  loop_invariant acc rest -> ("__proto__", null) ∈ rest ->
  created_prototype result = Some null.
Proof.
  revert acc reg. induction rest as [| [k' v'] rest IH]; intros acc reg.
  - intros _ _ Hin. by apply not_elem_of_nil in Hin.
  - simpl. unfold create_key.
    destruct (validateStyle k' obj); [discriminate |]. simpl.
    intros Hl Hinv Hin.
    apply elem_of_cons in Hin as [[= <- <-] | Hin].
    + simpl in Hl. destruct Hinv as (Hown & Hp & Hnd).
      simpl in Hnd. apply NoDup_cons in Hnd as [Hk Hnd].
      destruct Hp as [Hp | Hp]; [| exfalso; apply Hp; apply list_elem_of_here].
      rewrite (create_loop_prototype _ _ _ _ _ _ Hl Hk).
      apply (assign_proto acc null Hown Hp).
    + destruct (truthy v').
      * destruct (register v' reg) as [id reg1].
        exact (IH _ _ Hl (loop_invariant_step acc k' v' id rest Hinv) Hin).
      * exact (IH _ _ Hl (loop_invariant_step acc k' v' v' rest Hinv) Hin).
Qed.

Lemma create_loop_all_falsy (obj rest : list (string * Value))
    (acc result : Created) (reg reg' : PropRegistry) :
  loop obj rest (acc, reg) = (Firestore.Return result, reg') ->
  (forall k v, (k, v) ∈ rest -> truthy v = false) ->
  reg' = reg.
Proof.
  revert acc reg. induction rest as [| [k' v'] rest IH]; intros acc reg.
  - simpl. intros [= _ <-] _. reflexivity.
  - simpl. unfold create_key.
    destruct (validateStyle k' obj); [discriminate |]. simpl.
    intros Hl Hall.
    rewrite (Hall k' v') in Hl by apply list_elem_of_here.
    apply (IH _ _ Hl). intros k v Hin. apply (Hall k v).
    by apply list_elem_of_further.
Qed.

Lemma loop_invariant_start (obj : list (string * Value)) :
  NoDup obj.*1 -> loop_invariant empty_object obj.
Proof.
  intros Hnd. split; [apply lookup_empty |]. split; [left; reflexivity | exact Hnd].
Qed.

(** X19. When [create] returns, the own keys of the object it answers
    are the keys of its argument other than [__proto__]; the
    assignment to an own key [__proto__] of the argument goes to the
    prototype setter and stores no key. *)
Theorem create_same_keys (obj : list (string * Value)) (reg reg' : PropRegistry)
    (result : Created) :
  create PropRegistry register validateStyle obj reg = (Firestore.Return result, reg') ->
  NoDup obj.*1 ->
  dom (created_props result) = list_to_set obj.*1 ∖ {["__proto__"]}.
Proof.
  intros Hc Hnd.
  rewrite (create_loop_dom _ _ _ _ _ _ Hc (loop_invariant_start obj Hnd)).
  simpl. rewrite dom_empty_L. apply (left_id_L ∅ (∪)).
Qed.

(** X20. When [create] returns, every falsy style of the argument
    (undefined, null, false, 0, the empty string) under a key other
    than [__proto__] is stored under its key as it is, unregistered; a
    null style under the key [__proto__] becomes the prototype of the
    result instead; and when all the styles are falsy the registry is
    left as it was. *)
Theorem create_falsy_pass_through (obj : list (string * Value))
    (reg reg' : PropRegistry) (result : Created) :
  create PropRegistry register validateStyle obj reg = (Firestore.Return result, reg') ->
  NoDup obj.*1 ->
  (forall k v, (k, v) ∈ obj -> truthy v = false -> k ≠ "__proto__" ->
     created_props result !! k = Some v)
  /\ (("__proto__", null) ∈ obj ->
      created_prototype result = Some null
      /\ created_props result !! "__proto__" = None)
  /\ ((forall k v, (k, v) ∈ obj -> truthy v = false) -> reg' = reg).
Proof.
  intros Hc Hnd. split; [| split].
  - intros k v Hin Hf Hk.
    exact (create_loop_falsy _ _ _ _ _ _ _ _ Hc Hnd Hin Hf Hk).
  - intros Hin. split.
    + exact (create_loop_null_proto _ _ _ _ _ _ Hc (loop_invariant_start obj Hnd) Hin).
    + apply not_elem_of_dom.
      rewrite (create_loop_dom _ _ _ _ _ _ Hc (loop_invariant_start obj Hnd)).
      simpl. rewrite dom_empty_L, elem_of_union, elem_of_difference, elem_of_singleton.
      intros [Hy | [_ Hy]]; [by apply elem_of_empty in Hy | by apply Hy].
  - intros Hall. exact (create_loop_all_falsy _ _ _ _ _ _ Hc Hall).
Qed.

Lemma create_loop_stops (obj before after : list (string * Value))
    (k : string) (v : Value) (message : string)
    (acc : Created) (reg : PropRegistry) :
  (forall k0 v0, (k0, v0) ∈ before -> validateStyle k0 obj = None) ->
  validateStyle k obj = Some message ->
  loop obj (before ++ (k, v) :: after) (acc, reg)
  = (Firestore.Throw message, (loop obj before (acc, reg)).2).
Proof.
  intros Hb Hk. revert acc reg.
  induction before as [| [k0 v0] rest IH]; intros acc reg.
  - simpl. unfold create_key. rewrite Hk. reflexivity.
  - simpl. unfold create_key.
    rewrite (Hb k0 v0) by apply list_elem_of_here. simpl.
    assert (Hrest : forall k1 v1, (k1, v1) ∈ rest -> validateStyle k1 obj = None).
    { intros k1 v1 Hin. apply (Hb k1 v1). by apply list_elem_of_further. }
    destruct (truthy v0).
    + destruct (register v0 reg) as [id reg1]. apply (IH Hrest).
    + apply (IH Hrest).
Qed.

(** X21. [create] throws with the message of the first style the
    validation rejects and stops there: the styles after it are not
    registered, while the registry stays as the styles before it made
    it. *)
Theorem create_stops_at_invalid (before after : list (string * Value))
    (k : string) (v : Value) (message : string) (reg : PropRegistry) :
  (forall k0 v0, (k0, v0) ∈ before ->
     validateStyle k0 (before ++ (k, v) :: after) = None) ->
  validateStyle k (before ++ (k, v) :: after) = Some message ->
  create PropRegistry register validateStyle (before ++ (k, v) :: after) reg
  = (Firestore.Throw message,
     (loop (before ++ (k, v) :: after) before (empty_object, reg)).2).
Proof.
  intros Hb Hk. unfold create. by apply create_loop_stops.
Qed.

End CreateFacts.

(** ** ScreenOrientationScreen: the button handlers *)

Section ScreenHandlers.
Import Firestore ScreenActions.

(** X22. Off the web [lock] makes one platform call, [lockAsync] with
    the orientation pressed, and never touches fullscreen; a rejected
    lock is handed to [console.warn] and [lock] is fulfilled all the
    same. *)
Theorem lock_off_web (pf : Platform) (o : string) :
  OS pf ≠ "web" ->
  lock pf o
  = match lockAsync_answer pf o with
    | Fulfilled _ => ([lockAsync o], Fulfilled tt)
    | Rejected reason => ([lockAsync o; console_warn reason], Fulfilled tt)
    | Pending => ([lockAsync o], Pending)
    end.
Proof.
  intros Hos. unfold lock. rewrite (bool_decide_eq_false_2 _ Hos).
  destruct (lockAsync_answer pf o) as [[] | reason |]; reflexivity.
Qed.

(** X23. On the web, once fullscreen has been granted and the lock has
    settled, fullscreen is left again whether the lock succeeded or
    was rejected, and [lock] settles as [exitFullscreen] does. *)
Theorem lock_on_web_exits (pf : Platform) (o : string) :
  OS pf = "web" ->
  requestFullscreen_answer pf = Fulfilled tt ->
  lockAsync_answer pf o ≠ Pending ->
  exists warned,
    lock pf o
    = (requestFullscreen :: lockAsync o :: warned ++ [exitFullscreen],
       exitFullscreen_answer pf)
    /\ warned = match lockAsync_answer pf o with
                | Rejected reason => [console_warn reason]
                | _ => []
                end.
Proof.
  intros Hos Hreq Hlock. unfold lock.
  rewrite (bool_decide_eq_true_2 _ Hos), Hreq.
  destruct (lockAsync_answer pf o) as [[] | reason |]; [| | congruence].
  - exists []. split; [| reflexivity].
    unfold await, catch, call. simpl.
    destruct (exitFullscreen_answer pf); reflexivity.
  - exists [console_warn reason]. split; [| reflexivity].
    unfold await, catch, call. simpl.
    destruct (exitFullscreen_answer pf); reflexivity.
Qed.

(** X24. [lock] is rejected only by fullscreen: if its promise is
    rejected, the screen runs on the web and the reason is that of
    [requestFullscreen] or of [exitFullscreen], never that of
    [lockAsync]; and when [requestFullscreen] is rejected no lock is
    attempted. *)
Theorem lock_rejected_only_by_fullscreen (pf : Platform) (o reason : string) :
  ((lock pf o).2 = Rejected reason ->
     OS pf = "web"
     /\ (requestFullscreen_answer pf = Rejected reason
         \/ exitFullscreen_answer pf = Rejected reason))
  /\ (OS pf = "web" -> requestFullscreen_answer pf = Rejected reason ->
      lock pf o = ([requestFullscreen], Rejected reason)).
Proof.
  split.
  - unfold lock. case_bool_decide as Hos.
    + destruct (requestFullscreen_answer pf) as [[] | r |] eqn:Hreq; simpl.
      * destruct (lockAsync_answer pf o) as [[] | r |]; simpl;
          try discriminate; intros Hrej; (split; [exact Hos | right; exact Hrej]).
      * intros [= ->]. split; [exact Hos | left; reflexivity].
      * discriminate.
    + simpl. destruct (lockAsync_answer pf o) as [[] | r |]; simpl; discriminate.
  - intros Hos Hreq. unfold lock.
    rewrite (bool_decide_eq_true_2 _ Hos), Hreq. reflexivity.
Qed.

(** X25. [doesSupport] asks about PORTRAIT_DOWN and, once the answer
    has settled, alerts exactly once: [true] or [false] for an answer,
    and [undefined], after a [console.warn] of the reason, for a
    rejection; its own promise is never rejected. *)
Theorem doesSupport_alerts (pf : Platform) :
  doesSupport pf
  = match supportsOrientationLockAsync_answer pf (Orientation pf "PORTRAIT_DOWN") with
    | Fulfilled b =>
        ([supportsOrientationLockAsync (Orientation pf "PORTRAIT_DOWN");
          alert ("Orientation.PORTRAIT_DOWN supported: "
                 +:+ (if b then "true" else "false"))],
         Fulfilled tt)
    | Rejected reason =>
        ([supportsOrientationLockAsync (Orientation pf "PORTRAIT_DOWN");
          console_warn reason;
          alert "Orientation.PORTRAIT_DOWN supported: undefined"],
         Fulfilled tt)
    | Pending =>
        ([supportsOrientationLockAsync (Orientation pf "PORTRAIT_DOWN")], Pending)
    end
  /\ forall reason, (doesSupport pf).2 ≠ Rejected reason.
Proof.
  unfold doesSupport.
  destruct (supportsOrientationLockAsync_answer pf _) as [[|] | r |];
    (split; [reflexivity | discriminate]).
Qed.

(** X26. [unlock] and [lockPlatformExample] off the web make one
    platform call each and are never rejected: a rejected unlock goes
    to [console.warn], a rejected platform lock to [alert]. *)
Theorem unlock_and_platform_lock (pf : Platform) :
  unlock pf
  = match unlockAsync_answer pf with
    | Fulfilled _ => ([unlockAsync], Fulfilled tt)
    | Rejected reason => ([unlockAsync; console_warn reason], Fulfilled tt)
    | Pending => ([unlockAsync], Pending)
    end
  /\ (OS pf ≠ "web" ->
      exists options,
        options = lockPlatformAsync
                    [Orientation pf "LANDSCAPE_LEFT"; Orientation pf "LANDSCAPE_RIGHT"]
                    [Orientation pf "PORTRAIT_DOWN"; Orientation pf "LANDSCAPE_RIGHT"]
                    8
        /\ lockPlatformExample pf
           = match lockPlatformAsync_answer pf with
             | Fulfilled _ => ([options], Fulfilled tt)
             | Rejected e => ([options; alert e], Fulfilled tt)
             | Pending => ([options], Pending)
             end).
Proof.
  split.
  - unfold unlock. destruct (unlockAsync_answer pf) as [[] | r |]; reflexivity.
  - intros Hos. eexists. split; [reflexivity |].
    unfold lockPlatformExample. rewrite (bool_decide_eq_false_2 _ Hos).
    destruct (lockPlatformAsync_answer pf) as [[] | r |]; reflexivity.
Qed.

End ScreenHandlers.

(** ** ScreenOrientationScreen: the state over the life of the screen *)

Section ScreenLifecycle.
Import Firestore ScreenActions.

Lemma deliver_component (events : list Event) (s : Screen) :
  component (deliver events s) = component s.
Proof.
  unfold deliver. revert s. induction events as [| e rest IH]; intros s;
    [reflexivity |].
  simpl. rewrite IH. reflexivity.
Qed.

Lemma deliver_snoc (events : list Event) (e : Event) (s : Screen) :
  deliver (events ++ [e]) s = onOrientationChange e (deliver events s).
Proof. unfold deliver. rewrite foldl_app. reflexivity. Qed.

(** X27. Once the lock query of [componentDidMount] is fulfilled, the
    state holds the lock it answered and an undefined orientation,
    whatever [getOrientationAsync] answers and whatever orientation
    changes were delivered to the listener in the meantime; the
    listener stays stored. *)
Theorem componentDidMount_orientation_undefined (pf : Platform)
    (sub : Bridge.Subscription) (s : Screen) (events : list Event) (l : string) :
  getOrientationLockAsync_answer pf = Fulfilled l ->
  (componentDidMount_resume pf
     (deliver events (componentDidMount_begin sub s).1)).2 = Fulfilled tt
  /\ state (componentDidMount_resume pf
              (deliver events (componentDidMount_begin sub s).1)).1
     = {| orientation := None; orientationLock := Some l |}
  /\ ScreenOrientationScreen.listener
       (component (componentDidMount_resume pf
                     (deliver events (componentDidMount_begin sub s).1)).1)
     = Some sub.
Proof.
  intros Hl. unfold componentDidMount_resume, Promise_all2, Promise_orientation.
  rewrite Hl. simpl. split; [reflexivity |]. split; [reflexivity |].
  rewrite deliver_component. reflexivity.
Qed.

(** X28. When the lock query of [componentDidMount] is rejected, so is
    [componentDidMount]; the state stays as the listener left it and
    the listener stays stored. *)
Theorem componentDidMount_rejected (pf : Platform) (sub : Bridge.Subscription)
    (s : Screen) (events : list Event) (reason : string) :
  getOrientationLockAsync_answer pf = Rejected reason ->
  componentDidMount_resume pf (deliver events (componentDidMount_begin sub s).1)
  = (deliver events (componentDidMount_begin sub s).1, Rejected reason)
  /\ ScreenOrientationScreen.listener
       (component (deliver events (componentDidMount_begin sub s).1))
     = Some sub.
Proof.
  intros Hl. unfold componentDidMount_resume, Promise_all2. rewrite Hl.
  split; [reflexivity |]. rewrite deliver_component. reflexivity.
Qed.

(** X29. After any non-empty sequence of orientation changes the state
    shows the orientation and the lock of the last one, and
    [updateOrientationAsync], once its query is fulfilled, stores the
    orientation it was answered and keeps the lock. *)
Theorem state_follows_last_event (pf : Platform) (events : list Event)
    (e : Event) (s : Screen) :
  state (deliver (events ++ [e]) s)
  = {| orientation := event_orientation e;
       orientationLock := event_orientationLock e |}
  /\ forall o, getOrientationAsync_answer pf = Fulfilled o ->
       state (updateOrientationAsync pf s).1
       = {| orientation := Some o; orientationLock := orientationLock (state s) |}.
Proof.
  split.
  - rewrite deliver_snoc. reflexivity.
  - intros o Ho. unfold updateOrientationAsync. rewrite Ho. reflexivity.
Qed.

End ScreenLifecycle.

(** ** Witnesses of the further properties *)

Section FurtherWitnesses.
Import Firestore.

Lemma add_throws_before_write_witness :
  (@add Samples.imports 5%Z MoreSamples.misplaced_store).1
  = Throw doc_invariant_message
  /\ writes (@add Samples.imports 5%Z MoreSamples.misplaced_store).2 = []
  /\ generated (@add Samples.imports 5%Z MoreSamples.misplaced_store).2 = 1
  /\ this (@add Samples.imports 5%Z MoreSamples.misplaced_store).2
     = this MoreSamples.misplaced_store.
Proof.
  apply (@add_throws_before_write Samples.imports 5%Z MoreSamples.misplaced_store).
  reflexivity.
Defined.

Lemma add_propagates_failure_witness :
  (@add Samples.imports 5%Z MoreSamples.locked_store).1
  = Return (Rejected "permission-denied")
  /\ writes (@add Samples.imports 5%Z MoreSamples.locked_store).2
     = [(@auto_document Samples.imports MoreSamples.locked_store, 5%Z)].
Proof.
  apply (@add_propagates_failure Samples.imports 5%Z MoreSamples.locked_store).
  - reflexivity.
  - discriminate.
Defined.

Lemma add_twice_distinct_witness :
  exists r1 r2,
    writes (@add Samples.imports 6%Z (@add Samples.imports 5%Z Samples.store).2).2
    = [(r1, 5%Z); (r2, 6%Z)]
    /\ doc_path r1 = ["users"; "autoA"]
    /\ doc_path r2 = ["users"; "autoB"]
    /\ doc_path r1 ≠ doc_path r2
    /\ generated (@add Samples.imports 6%Z (@add Samples.imports 5%Z Samples.store).2).2
       = 2.
Proof.
  apply (@add_twice_distinct Samples.imports 5%Z 6%Z Samples.store).
  - intros p a b E. apply app_inv_head in E. congruence.
  - discriminate.
  - reflexivity.
  - reflexivity.
Defined.

End FurtherWitnesses.

Section EntryWitnesses.
Import Bridge AppEntry.

Lemma main_env_not_an_object_witness :
  get_property MoreSamples.manifest_without_env "env" = Firestore.Return None
  /\ main MoreSamples.manifest_without_env MoreSamples.runtime
     = (Firestore.Return tt,
        {| process_env := process_env MoreSamples.runtime;
           geolocation_polyfilled := true |}).
Proof.
  split; [reflexivity |].
  apply (main_env_not_an_object MoreSamples.manifest_without_env None
           MoreSamples.runtime); [reflexivity | discriminate | discriminate].
Defined.


Example main_env_object_values :
  process_env (main MoreSamples.manifest MoreSamples.runtime).2
  = {| own := {["API_URL" := JString "https://example.org";
                "STAGE" := JString "beta";
                "HOME" := JString "/"]};
       prototype := ObjectPrototype |}.
Proof. vm_compute. reflexivity. Qed.

Lemma main_without_manifest_witness :
  (Some JNull = None \/ Some JNull = Some JNull)
  /\ main (Some JNull) MoreSamples.runtime
     = (Firestore.Throw "TypeError", MoreSamples.runtime).
Proof.
  split; [right; reflexivity |].
  apply (main_without_manifest (Some JNull) MoreSamples.runtime).
  right. reflexivity.
Defined.

Lemma main_idempotent_witness :
  main MoreSamples.manifest (main MoreSamples.manifest MoreSamples.runtime).2
  = main MoreSamples.manifest MoreSamples.runtime.
Proof.
  apply (main_idempotent MoreSamples.manifest MoreSamples.runtime).
  intros entries [= <-]. reflexivity.
Defined.

End EntryWitnesses.

Section AttributeWitnesses.
Import StyleAttributes.

Lemma preprocessor_invalid_attribute_witness :
  setStyleAttributePreprocessor true "opacity" (Function 9) MoreSamples.attributes
  = (Firestore.Return tt, MoreSamples.attributes,
     [console_error ("opacity" +:+ " is not a valid style attribute")]).
Proof.
  apply (preprocessor_invalid_attribute true "opacity" (Function 9)
           MoreSamples.attributes); vm_compute; discriminate.
Defined.

(** A method the table inherits from [Object.prototype] is no valid
    attribute either. *)
Example preprocessor_inherited_method :
  read MoreSamples.attributes "toString" = Builtin "toString"
  /\ setStyleAttributePreprocessor false "toString" (Function 9) MoreSamples.attributes
     = (Firestore.Return tt, MoreSamples.attributes,
        [console_error ("toString" +:+ " is not a valid style attribute")]).
Proof. split; vm_compute; reflexivity. Qed.

Lemma preprocessor_object_attribute_witness :
  exists props',
    own (setStyleAttributePreprocessor true "transform" (Function 9)
           MoreSamples.attributes).1.2 !! "transform"
    = Some (Object props')
    /\ props' !! "process" = Some (Function 9)
    /\ (forall key, key ≠ "process" ->
          props' !! key = MoreSamples.transform_entry !! key)
    /\ (forall other, other ≠ "transform" ->
          own (setStyleAttributePreprocessor true "transform" (Function 9)
                 MoreSamples.attributes).1.2 !! other
          = own MoreSamples.attributes !! other)
    /\ prototype (setStyleAttributePreprocessor true "transform" (Function 9)
                    MoreSamples.attributes).1.2
       = prototype MoreSamples.attributes
    /\ (setStyleAttributePreprocessor true "transform" (Function 9)
          MoreSamples.attributes).1.1
       = Firestore.Return tt.
Proof.
  apply (preprocessor_object_attribute true "transform" (Function 9)
           MoreSamples.attributes MoreSamples.transform_entry).
  vm_compute. reflexivity.
Defined.

Lemma preprocessor_last_wins_witness :
  (setStyleAttributePreprocessor true "transform" (Function 9)
     (setStyleAttributePreprocessor true "transform" (Function 8)
        MoreSamples.attributes).1.2).1.2
  = (setStyleAttributePreprocessor true "transform" (Function 9)
       MoreSamples.attributes).1.2
  /\ (setStyleAttributePreprocessor true "transform" (Function 9)
        (setStyleAttributePreprocessor true "transform" (Function 8)
           MoreSamples.attributes).1.2).2
     = [console_warn ("Overwriting " +:+ "transform"
                      +:+ " style attribute preprocessor")].
Proof.
  apply (preprocessor_last_wins true "transform" 8 (Function 9)
           MoreSamples.attributes MoreSamples.transform_entry).
  vm_compute. reflexivity.
Defined.

Lemma preprocessor_null_attribute_witness :
  setStyleAttributePreprocessor true "broken" (Function 9) MoreSamples.attributes
  = (Firestore.Throw "TypeError", MoreSamples.attributes, [])
  /\ setStyleAttributePreprocessor false "broken" (Function 9) MoreSamples.attributes
     = (Firestore.Return tt,
        {| own := <["broken" := Object {["process" := Function 9]}]>
                    (own MoreSamples.attributes);
           prototype := prototype MoreSamples.attributes |}, []).
Proof.
  apply (preprocessor_null_attribute "broken" (Function 9) MoreSamples.attributes).
  vm_compute. reflexivity.
Defined.

End AttributeWitnesses.

Section CreateWitnesses.
Import StyleSheet StyleSheetCreate.

Lemma create_same_keys_witness :
  create nat MoreSamples.numbering MoreSamples.reject_invalid
    MoreSamples.styles_with_proto 0
  = (Firestore.Return MoreSamples.created_with_proto, 2)
  /\ dom (created_props MoreSamples.created_with_proto)
     = list_to_set MoreSamples.styles_with_proto.*1 ∖ {["__proto__"]}.
Proof.
  split; [vm_compute; reflexivity |].
  apply (create_same_keys nat MoreSamples.numbering MoreSamples.reject_invalid
           MoreSamples.styles_with_proto 0 2).
  - vm_compute. reflexivity.
  - apply (bool_decide_unpack (NoDup MoreSamples.styles_with_proto.*1)).
    vm_compute. exact I.
Defined.

Lemma create_falsy_pass_through_witness :
  (forall k v, (k, v) ∈ MoreSamples.styles_with_proto -> truthy v = false ->
     k ≠ "__proto__" ->
     created_props MoreSamples.created_with_proto !! k = Some v)
  /\ (("__proto__", null) ∈ MoreSamples.styles_with_proto ->
      created_prototype MoreSamples.created_with_proto = Some null
      /\ created_props MoreSamples.created_with_proto !! "__proto__" = None)
  /\ ((forall k v, (k, v) ∈ MoreSamples.styles_with_proto -> truthy v = false) ->
      2 = 0).
Proof.
  apply (create_falsy_pass_through nat MoreSamples.numbering
           MoreSamples.reject_invalid MoreSamples.styles_with_proto 0 2).
  - vm_compute. reflexivity.
  - apply (bool_decide_unpack (NoDup MoreSamples.styles_with_proto.*1)).
    vm_compute. exact I.
Defined.

Lemma create_stops_at_invalid_witness :
  create nat MoreSamples.numbering MoreSamples.reject_invalid
    ([("container", ref 10)] ++ ("invalid", ref 12) :: [("title", ref 11)]) 0
  = (Firestore.Throw "invalid style", 1).
Proof.
  apply (create_stops_at_invalid nat MoreSamples.numbering MoreSamples.reject_invalid
           [("container", ref 10)] [("title", ref 11)] "invalid" (ref 12)
           "invalid style" 0).
  - intros k0 v0 Hin. apply list_elem_of_singleton in Hin.
    injection Hin as -> ->. reflexivity.
  - reflexivity.
Defined.

Example create_plain_styles :
  create nat MoreSamples.numbering MoreSamples.reject_invalid MoreSamples.styles 0
  = (Firestore.Return
       {| created_props :=
            {["container" := number 1; "hidden" := null; "title" := number 2]};
          created_prototype := None |}, 2).
Proof. vm_compute. reflexivity. Qed.

End CreateWitnesses.

Section ScreenWitnesses.
Import Firestore ScreenActions.

Lemma lock_off_web_witness :
  lock MoreSamples.phone "PORTRAIT_DOWN"
  = ([lockAsync "PORTRAIT_DOWN"; console_warn "unsupported"], Fulfilled tt).
Proof.
  apply (lock_off_web MoreSamples.phone "PORTRAIT_DOWN"). discriminate.
Defined.

Lemma lock_on_web_exits_witness :
  exists warned,
    lock MoreSamples.browser "PORTRAIT_DOWN"
    = (requestFullscreen :: lockAsync "PORTRAIT_DOWN" :: warned ++ [exitFullscreen],
       Fulfilled tt)
    /\ warned = [console_warn "unsupported"].
Proof.
  apply (lock_on_web_exits MoreSamples.browser "PORTRAIT_DOWN");
    [reflexivity | reflexivity | discriminate].
Defined.

Lemma componentDidMount_orientation_undefined_witness :
  (componentDidMount_resume MoreSamples.phone
     (deliver [MoreSamples.rotation]
        (componentDidMount_begin 1%N MoreSamples.unmounted).1)).2 = Fulfilled tt
  /\ state (componentDidMount_resume MoreSamples.phone
              (deliver [MoreSamples.rotation]
                 (componentDidMount_begin 1%N MoreSamples.unmounted).1)).1
     = {| orientation := None; orientationLock := Some "DEFAULT" |}
  /\ ScreenOrientationScreen.listener
       (component (componentDidMount_resume MoreSamples.phone
                     (deliver [MoreSamples.rotation]
                        (componentDidMount_begin 1%N MoreSamples.unmounted).1)).1)
     = Some 1%N.
Proof.
  apply (componentDidMount_orientation_undefined MoreSamples.phone 1%N
           MoreSamples.unmounted [MoreSamples.rotation] "DEFAULT").
  reflexivity.
Defined.

Lemma componentDidMount_rejected_witness :
  componentDidMount_resume MoreSamples.browser
    (deliver [MoreSamples.rotation]
       (componentDidMount_begin 1%N MoreSamples.unmounted).1)
  = (deliver [MoreSamples.rotation]
       (componentDidMount_begin 1%N MoreSamples.unmounted).1,
     Rejected "no lock")
  /\ ScreenOrientationScreen.listener
       (component (deliver [MoreSamples.rotation]
                     (componentDidMount_begin 1%N MoreSamples.unmounted).1))
     = Some 1%N.
Proof.
  apply (componentDidMount_rejected MoreSamples.browser 1%N MoreSamples.unmounted
           [MoreSamples.rotation] "no lock").
  reflexivity.
Defined.

(** Before the query of [componentDidMount] settles the screen shows
    the orientation the listener was told; once it settles the
    orientation is gone. *)
Example mount_forgets_orientation :
  orientation (state (deliver [MoreSamples.rotation]
                        (componentDidMount_begin 1%N MoreSamples.unmounted).1))
  = Some "PORTRAIT_UP"
  /\ orientation (state (componentDidMount_resume MoreSamples.phone
                           (deliver [MoreSamples.rotation]
                              (componentDidMount_begin 1%N MoreSamples.unmounted).1)).1)
     = None.
Proof. split; reflexivity. Qed.

End ScreenWitnesses.
